(** * ARM dispatch-table generator: classifier, table builder, macro emitter
      and cross-check of two opcode tables.

    The development follows [src/inst_table.py] and
    [src/cross_check_tables.py].  Python integers are [Z], Python strings are
    [string], dictionaries are [gmap]s, lists are [list]s indexed with
    stdpp's lookup.  A Python exception ([KeyError], [IndexError]) is the
    [None] of an [option]; a [while] loop is a fuelled recursion whose
    exhaustion is [None] as well, and every loop is shown to have fuel
    enough. *)

From Stdlib Require Import ZArith String Ascii List Lia Bool.
From stdpp Require Import base option list gmap strings sorting fin_maps.

Local Open Scope string_scope.
Local Open Scope Z_scope.

(** ** Control flow of a rule block *)

(** A block of [classify] either returns a value, raises, or falls through
    to the statement after it. *)
Inductive flow (A : Type) : Type :=
  | Return (a : A)
  | Raise
  | Pass.
Arguments Return {A} a.
Arguments Raise {A}.
Arguments Pass {A}.

(** Statements in sequence: the first block that does not fall through
    decides; [final] is the statement after the last block. *)
Fixpoint in_sequence {A : Type} (blocks : list (flow A)) (final : option A) : option A :=
  match blocks with
  | [] => final
  | Return a :: _ => Some a
  | Raise :: _ => None
  | Pass :: rest => in_sequence rest final
  end.

(** [d[k]] on a dictionary: [KeyError] when the key is missing. *)
Definition subscript {A : Type} (d : gmap Z A) (k : Z) : flow A :=
  match d !! k with
  | Some v => Return v
  | None => Raise
  end.

(** [d.get(k, default)]. *)
Definition get {K : Type} `{Countable K} {A : Type} (d : gmap K A) (k : K) (default : A) : A :=
  match d !! k with
  | Some v => v
  | None => default
  end.

(** ** The classifier, [inst_table.py] lines 8-182 *)

Module InstTable.

Definition data_proc_map : gmap Z string :=
  list_to_map [
    (0x0, "AND"); (0x1, "EOR"); (0x2, "SUB"); (0x3, "RSB");
    (0x4, "ADD"); (0x5, "ADC"); (0x6, "SBC"); (0x7, "RSC");
    (0x8, "TST"); (0x9, "TEQ"); (0xA, "CMP"); (0xB, "CMN");
    (0xC, "ORR"); (0xD, "MOV"); (0xE, "BIC"); (0xF, "MVN") ].

(** [opcode in [0x8, 0x9, 0xA, 0xB]]. *)
Definition in_list (x : Z) (l : list Z) : bool := existsb (Z.eqb x) l.

Definition classify (bits_27_20 mul_swp_bit : Z) : option string :=
  let b27 := Z.land (Z.shiftr bits_27_20 7) 1 in
  let b26 := Z.land (Z.shiftr bits_27_20 6) 1 in
  let b25 := Z.land (Z.shiftr bits_27_20 5) 1 in
  let b24 := Z.land (Z.shiftr bits_27_20 4) 1 in
  let b23 := Z.land (Z.shiftr bits_27_20 3) 1 in
  let b22 := Z.land (Z.shiftr bits_27_20 2) 1 in
  let b21 := Z.land (Z.shiftr bits_27_20 1) 1 in
  let b20 := Z.land bits_27_20 1 in
  in_sequence [
    (* MRS / MSR *)
    if (b27 =? 0) && (b26 =? 0) && (b25 =? 0) && (b24 =? 1) && (b23 =? 0)
       && (b20 =? 0) && (mul_swp_bit =? 0)
    then (if b21 =? 0 then Return "MRS" else Return "MSR_REG")
    else Pass;
    (* MSR (immediate) *)
    if (b27 =? 0) && (b26 =? 0) && (b25 =? 1) && (b24 =? 1) && (b23 =? 0)
       && (b20 =? 0) && (mul_swp_bit =? 0)
    then Return "MSR_IMM"
    else Pass;
    (* MUL/MLA *)
    if (b27 =? 0) && (b26 =? 0) && (b25 =? 0) && (b24 =? 0) && (b23 =? 0)
       && (b22 =? 0) && (mul_swp_bit =? 1)
    then (if b21 =? 0 then Return (if b20 =? 1 then "MULS" else "MUL")
          else if b21 =? 1 then Return (if b20 =? 1 then "MLAS" else "MLA")
          else Pass)
    else Pass;
    (* UMULL/UMLAL/SMULL/SMLAL *)
    if (b27 =? 0) && (b26 =? 0) && (b25 =? 0) && (b24 =? 0) && (b23 =? 1)
       && (mul_swp_bit =? 1)
    then (if (b22 =? 0) && (b21 =? 0) then Return (if b20 =? 1 then "UMULLS" else "UMULL")
          else if (b22 =? 0) && (b21 =? 1) then Return (if b20 =? 1 then "UMLALS" else "UMLAL")
          else if (b22 =? 1) && (b21 =? 0) then Return (if b20 =? 1 then "SMULLS" else "SMULL")
          else if (b22 =? 1) && (b21 =? 1) then Return (if b20 =? 1 then "SMLALS" else "SMLAL")
          else Pass)
    else Pass;
    (* SWP/SWPB *)
    if (b27 =? 0) && (b26 =? 0) && (b25 =? 0) && (b24 =? 1) && (b23 =? 0)
       && (mul_swp_bit =? 1)
    then (if b22 =? 0 then Return "SWP"
          else if b22 =? 1 then Return "SWPB"
          else Pass)
    else Pass;
    (* Data Processing *)
    if (b27 =? 0) && (b26 =? 0) && (mul_swp_bit =? 0)
    then (let opcode := Z.land (Z.shiftr bits_27_20 1) 0xF in
          let suffix := if b25 =? 1 then "_IMM" else "_REG" in
          if in_list opcode [0x8; 0x9; 0xA; 0xB]
          then match subscript data_proc_map opcode with
               | Return name => Return (name +:+ suffix)
               | Raise => Raise
               | Pass => Pass
               end
          else Return (get data_proc_map opcode "Other DP" +:+ suffix))
    else Pass;
    (* Single Data Transfer *)
    if (b27 =? 0) && (b26 =? 1) && (mul_swp_bit =? 0)
    then (if (b20 =? 0) && (b22 =? 0) && (b25 =? 0)
          then (if b24 =? 0 then Return "STR_IMM_POST_WB"
                else Return (if b21 =? 1 then "STR_IMM_PRE_WB" else "STR_IMM_PRE_NOWB"))
          else if (b20 =? 0) && (b22 =? 0) && (b25 =? 1)
          then (if b24 =? 0 then Return "STR_REG_POST_WB"
                else Return (if b21 =? 1 then "STR_REG_PRE_WB" else "STR_REG_PRE_NOWB"))
          else if (b20 =? 0) && (b22 =? 1) && (b25 =? 0)
          then (if b24 =? 0 then Return "STRB_IMM_POST_WB"
                else Return (if b21 =? 1 then "STRB_IMM_PRE_WB" else "STRB_IMM_PRE_NOWB"))
          else if (b20 =? 0) && (b22 =? 1) && (b25 =? 1)
          then (if b24 =? 0 then Return "STRB_REG_POST_WB"
                else Return (if b21 =? 1 then "STRB_REG_PRE_WB" else "STRB_REG_PRE_NOWB"))
          else if (b20 =? 1) && (b22 =? 0) && (b25 =? 0)
          then (if b24 =? 0 then Return "LDR_IMM_POST_WB"
                else Return (if b21 =? 1 then "LDR_IMM_PRE_WB" else "LDR_IMM_PRE_NOWB"))
          else if (b20 =? 1) && (b22 =? 0) && (b25 =? 1)
          then (if b24 =? 0 then Return "LDR_REG_POST_WB"
                else Return (if b21 =? 1 then "LDR_REG_PRE_WB" else "LDR_REG_PRE_NOWB"))
          else if (b20 =? 1) && (b22 =? 1) && (b25 =? 0)
          then (if b24 =? 0 then Return "LDRB_IMM_POST_WB"
                else Return (if b21 =? 1 then "LDRB_IMM_PRE_WB" else "LDRB_IMM_PRE_NOWB"))
          else if (b20 =? 1) && (b22 =? 1) && (b25 =? 1)
          then (if b24 =? 0 then Return "LDRB_REG_POST_WB"
                else Return (if b21 =? 1 then "LDRB_REG_PRE_WB" else "LDRB_REG_PRE_NOWB"))
          else Return "Other SDT")
    else Pass;
    (* Branch *)
    if (b27 =? 1) && (b26 =? 0) && (b25 =? 1)
    then (if b24 =? 0 then Return "B"
          else if b24 =? 1 then Return "BL"
          else Pass)
    else Pass;
    (* Branch, the same block a second time *)
    if (b27 =? 1) && (b26 =? 0) && (b25 =? 1)
    then (if b24 =? 0 then Return "B"
          else if b24 =? 1 then Return "BL"
          else Pass)
    else Pass;
    (* Block Data Transfer *)
    if (b27 =? 1) && (b26 =? 0) && (b25 =? 0)
    then (if b20 =? 1 then Return "LDM" else Return "STM")
    else Pass;
    (* Software Interrupt *)
    if (b27 =? 1) && (b26 =? 1) && (b25 =? 1) && (b24 =? 1)
    then Return "SWI"
    else Pass;
    (* Coprocessor *)
    if (b27 =? 1) && (b26 =? 1) && (b24 =? 0)
    then (if (b22 =? 1) && (b20 =? 1) then Return (if b25 =? 0 then "LDC_IMM" else "LDC_REG")
          else if (b22 =? 0) && (b20 =? 1) then Return (if b25 =? 0 then "LDC_IMM" else "LDC_REG")
          else if (b22 =? 1) && (b20 =? 0) then Return (if b25 =? 0 then "STC_IMM" else "STC_REG")
          else if (b22 =? 0) && (b20 =? 0) then Return (if b25 =? 0 then "STC_IMM" else "STC_REG")
          else if b22 =? 1 then Return "MRC"
          else if b22 =? 0 then Return "MCR"
          else Pass)
    else Pass;
    (* BX placeholder *)
    if (b27 =? 0) && (b26 =? 0) && (b25 =? 1) && (b24 =? 0) && (b23 =? 0)
       && (b22 =? 1) && (b21 =? 0) && (b20 =? 0) && (mul_swp_bit =? 0)
    then Return "BX (possible)"
    else Pass
  ] (Some "Undefined/Reserved").

(** ** The handler of each category, lines 184-294 *)

Definition type_to_handler_items : list (string * string) :=
  [
    (* Data Transfer (LDR/STR/LDRB/STRB) *)
    ("LDR_IMM_PRE_WB", "exec_arm_ldr_imm_pre_wb");
    ("LDR_IMM_PRE_NOWB", "exec_arm_ldr_imm_pre_nowb");
    ("LDR_IMM_POST_WB", "exec_arm_ldr_imm_post_wb");
    ("LDR_IMM_POST_NOWB", "exec_arm_ldr_imm_post_nowb");
    ("LDR_REG_PRE_WB", "exec_arm_ldr_reg_pre_wb");
    ("LDR_REG_PRE_NOWB", "exec_arm_ldr_reg_pre_nowb");
    ("LDR_REG_POST_WB", "exec_arm_ldr_reg_post_wb");
    ("LDR_REG_POST_NOWB", "exec_arm_ldr_reg_post_nowb");
    ("LDRB_IMM_PRE_WB", "exec_arm_ldrb_imm_pre_wb");
    ("LDRB_IMM_PRE_NOWB", "exec_arm_ldrb_imm_pre_nowb");
    ("LDRB_IMM_POST_WB", "exec_arm_ldrb_imm_post_wb");
    ("LDRB_IMM_POST_NOWB", "exec_arm_ldrb_imm_post_nowb");
    ("LDRB_REG_PRE_WB", "exec_arm_ldrb_reg_pre_wb");
    ("LDRB_REG_PRE_NOWB", "exec_arm_ldrb_reg_pre_nowb");
    ("LDRB_REG_POST_WB", "exec_arm_ldrb_reg_post_wb");
    ("LDRB_REG_POST_NOWB", "exec_arm_ldrb_reg_post_nowb");
    ("STR_IMM_PRE_WB", "exec_arm_str_imm_pre_wb");
    ("STR_IMM_PRE_NOWB", "exec_arm_str_imm_pre_nowb");
    ("STR_IMM_POST_WB", "exec_arm_str_imm_post_wb");
    ("STR_IMM_POST_NOWB", "exec_arm_str_imm_post_nowb");
    ("STR_REG_PRE_WB", "exec_arm_str_reg_pre_wb");
    ("STR_REG_PRE_NOWB", "exec_arm_str_reg_pre_nowb");
    ("STR_REG_POST_WB", "exec_arm_str_reg_post_wb");
    ("STR_REG_POST_NOWB", "exec_arm_str_reg_post_nowb");
    ("STRB_IMM_PRE_WB", "exec_arm_strb_imm_pre_wb");
    ("STRB_IMM_PRE_NOWB", "exec_arm_strb_imm_pre_nowb");
    ("STRB_IMM_POST_WB", "exec_arm_strb_imm_post_wb");
    ("STRB_IMM_POST_NOWB", "exec_arm_strb_imm_post_nowb");
    ("STRB_REG_PRE_WB", "exec_arm_strb_reg_pre_wb");
    ("STRB_REG_PRE_NOWB", "exec_arm_strb_reg_pre_nowb");
    ("STRB_REG_POST_WB", "exec_arm_strb_reg_post_wb");
    ("STRB_REG_POST_NOWB", "exec_arm_strb_reg_post_nowb");
    (* Multiply/Swap *)
    ("MLA", "exec_arm_mla");
    ("MLAS", "exec_arm_mla");
    ("MUL", "exec_arm_mul");
    ("MULS", "exec_arm_mul");
    ("SMLAL", "exec_arm_smlal");
    ("SMLALS", "exec_arm_smlal");
    ("SMULL", "exec_arm_smull");
    ("SMULLS", "exec_arm_smull");
    ("SWP", "exec_arm_swp");
    ("SWPB", "exec_arm_swpb");
    ("UMLAL", "exec_arm_umlal");
    ("UMLALS", "exec_arm_umlal");
    ("UMULL", "exec_arm_umull");
    ("UMULLS", "exec_arm_umull");
    (* Data Processing *)
    ("ADC_IMM", "exec_arm_adc_imm");
    ("ADC_REG", "exec_arm_adc_reg");
    ("ADD_IMM", "exec_arm_add_imm");
    ("ADD_REG", "exec_arm_add_reg");
    ("AND_IMM", "exec_arm_and_imm");
    ("AND_REG", "exec_arm_and_reg");
    ("BIC_IMM", "exec_arm_bic_imm");
    ("BIC_REG", "exec_arm_bic_reg");
    ("CMN_IMM", "exec_arm_cmn_imm");
    ("CMN_REG", "exec_arm_cmn_reg");
    ("CMP_IMM", "exec_arm_cmp_imm");
    ("CMP_REG", "exec_arm_cmp_reg");
    ("EOR_IMM", "exec_arm_eor_imm");
    ("EOR_REG", "exec_arm_eor_reg");
    ("MOV_IMM", "exec_arm_mov_imm");
    ("MOV_REG", "exec_arm_mov_reg");
    ("MVN_IMM", "exec_arm_mvn_imm");
    ("MVN_REG", "exec_arm_mvn_reg");
    ("ORR_IMM", "exec_arm_orr_imm");
    ("ORR_REG", "exec_arm_orr_reg");
    ("RSB_IMM", "exec_arm_rsb_imm");
    ("RSB_REG", "exec_arm_rsb_reg");
    ("RSC_IMM", "exec_arm_rsc_imm");
    ("RSC_REG", "exec_arm_rsc_reg");
    ("SBC_IMM", "exec_arm_sbc_imm");
    ("SBC_REG", "exec_arm_sbc_reg");
    ("SUB_IMM", "exec_arm_sub_imm");
    ("SUB_REG", "exec_arm_sub_reg");
    ("TEQ_IMM", "exec_arm_teq_imm");
    ("TEQ_REG", "exec_arm_teq_reg");
    ("TST_IMM", "exec_arm_tst_imm");
    ("TST_REG", "exec_arm_tst_reg");
    (* Branch/Block Transfer *)
    ("B", "exec_arm_b");
    ("BL", "exec_arm_bl");
    ("LDM", "exec_arm_ldm");
    ("STM", "exec_arm_stm");
    (* Software Interrupt *)
    ("SWI", "exec_arm_software_interrupt");
    (* Coprocessor *)
    ("LDC_IMM", "exec_arm_ldc_imm");
    ("LDC_REG", "exec_arm_ldc_reg");
    ("MCR", "exec_arm_mcr");
    ("MRC", "exec_arm_mrc");
    ("STC_IMM", "exec_arm_stc_imm");
    ("STC_REG", "exec_arm_stc_reg");
    (* Miscellaneous *)
    ("BX (possible)", "exec_arm_bx_possible");
    ("MRS", "exec_arm_mrs");
    ("MSR_REG", "exec_arm_msr_reg");
    ("MSR_IMM", "exec_arm_msr_imm");
    (* Undefined *)
    ("Undefined/Reserved", "exec_arm_undefined")  ].

Definition type_to_handler : gmap string string := list_to_map type_to_handler_items.


(** ** The handler array, lines 296-302 *)

(** [range(n)]. *)
Definition range (n : nat) : list Z := Z.of_nat <$> seq 0 n.

(** The position [a[i]] addresses in a list of length [len]: a negative
    index counts from the end, anything else out of range is an
    [IndexError]. *)
Definition list_index (len : nat) (i : Z) : option nat :=
  let n := Z.of_nat len in
  if (0 <=? i) && (i <? n) then Some (Z.to_nat i)
  else if (- n <=? i) && (i <? 0) then Some (Z.to_nat (n + i))
  else None.

(** [a[i] = v]. *)
Definition setitem {A : Type} (a : list A) (i : Z) (v : A) : option (list A) :=
  pos ← list_index (length a) i; Some (<[pos := v]> a).

(** A [for] loop over [xs] whose body may raise. *)
Fixpoint for_each {S X : Type} (xs : list X) (body : S → X → option S) (s : S) : option S :=
  match xs with
  | [] => Some s
  | x :: rest => s' ← body s x; for_each rest body s'
  end.

(** The index written for [(idx, mul_swp_bit)]. *)
Definition new_idx (idx mul_swp_bit : Z) : Z := Z.lor (Z.shiftl idx 1) mul_swp_bit.

(** The body of the inner loop; [None] in the array is Python's [None]. *)
Definition build_entry (idx : Z) (arr : list (option string)) (mul_swp_bit : Z)
  : option (list (option string)) :=
  mnemonic ← classify idx mul_swp_bit;
  setitem arr (new_idx idx mul_swp_bit)
          (Some (get type_to_handler mnemonic "exec_arm_undefined")).

Definition build_handler_array : option (list (option string)) :=
  for_each (range 256)
           (λ arr idx, for_each [0; 1] (build_entry idx) arr)
           (replicate 512 None).

(** The pairs [(idx, mul_swp_bit)] in the order the two loops visit them. *)
Definition iterations : list (Z * Z) :=
  idx ← range 256; d ← [0; 1]; [(idx, d)].

(** The table the script builds at import time, evaluated once; lemma
    [handler_array_built] below ties it to [build_handler_array]. *)
Definition handler_array : list string :=
  Eval vm_compute in
    match build_handler_array ≫= mapM id with
    | Some arr => arr
    | None => []
    end.

(** ** The emitter, lines 304-426 *)

(** The macro calls of the boilerplate (lines 306-315) that a line of the
    table can consist of; the argument of a macro is always [ARM_FN(name)],
    so a call carries the names. *)
Inductive macro_call : Type :=
  | ARM_FN (func : string)
  | REPEAT_2 (handler : string)
  | REPEAT_4 (handler : string)
  | REPEAT_8 (handler : string)
  | REPEAT_16 (handler : string)
  | REPEAT_32 (handler : string)
  | REPEAT_64 (handler : string)
  | REPEAT_128 (handler : string)
  | REPEAT_ALT (a b : string)
  | REPEAT_2ALT (a b : string)
  | Listing (funcs : list string).

(** The bodies of the [#define]s, lines 307-315: the member functions that
    end up in consecutive slots of [arm_exec_table]. *)
Definition repeat_2 (handler : string) : list string := [handler; handler].
Definition repeat_4 (handler : string) : list string := [handler; handler; handler; handler].
Definition repeat_8 (handler : string) : list string :=
  [handler; handler; handler; handler; handler; handler; handler; handler].
Definition repeat_16 (handler : string) : list string := repeat_8 handler ++ repeat_8 handler.
Definition repeat_32 (handler : string) : list string := repeat_16 handler ++ repeat_16 handler.
Definition repeat_64 (handler : string) : list string := repeat_32 handler ++ repeat_32 handler.
Definition repeat_128 (handler : string) : list string := repeat_64 handler ++ repeat_64 handler.
Definition repeat_alt (a b : string) : list string := [a; b; a; b].
Definition repeat_2alt (a b : string) : list string := [a; a; b; b; a; a; b; b].

(** What the C preprocessor makes of a call. *)
Definition expand (c : macro_call) : list string :=
  match c with
  | ARM_FN func => [func]
  | REPEAT_2 handler => repeat_2 handler
  | REPEAT_4 handler => repeat_4 handler
  | REPEAT_8 handler => repeat_8 handler
  | REPEAT_16 handler => repeat_16 handler
  | REPEAT_32 handler => repeat_32 handler
  | REPEAT_64 handler => repeat_64 handler
  | REPEAT_128 handler => repeat_128 handler
  | REPEAT_ALT a b => repeat_alt a b
  | REPEAT_2ALT a b => repeat_2alt a b
  | Listing funcs => funcs
  end.

(** *** Text of a line *)

Definition hex_digit (d : N) : ascii :=
  match d with
  | 0 => "0" | 1 => "1" | 2 => "2" | 3 => "3" | 4 => "4" | 5 => "5"
  | 6 => "6" | 7 => "7" | 8 => "8" | 9 => "9" | 10 => "A" | 11 => "B"
  | 12 => "C" | 13 => "D" | 14 => "E" | _ => "F"
  end%N%char.

Fixpoint upper_hex_digits (fuel : nat) (n : N) (acc : string) : string :=
  match fuel with
  | O => acc
  | S fuel' =>
      let acc' := String (hex_digit (n mod 16)) acc in
      if (n / 16 =? 0)%N then acc' else upper_hex_digits fuel' (n / 16) acc'
  end.

Definition upper_hex (n : N) : string :=
  upper_hex_digits (S (N.to_nat (N.log2 n))) n "".

(** [c * n] for a one-character string. *)
Definition times (c : ascii) (n : Z) : string :=
  fold_right String "" (replicate (Z.to_nat n) c).

(** [s.rjust(width, "0")]. *)
Definition zfill (width : nat) (s : string) : string :=
  times "0" (Z.of_nat (width - String.length s)) +:+ s.

(** The format [{x:03X}]: upper-case hexadecimal, zero-padded to three
    characters, the sign counting as one of them. *)
Definition format_03X (x : Z) : string :=
  if x <? 0 then "-" +:+ zfill 2 (upper_hex (Z.to_N (- x)))
  else zfill 3 (upper_hex (Z.to_N x)).

Definition fn_text (func : string) : string := "ARM_FN(" +:+ func +:+ ")".

(** The C text of a call, without the indentation and the trailing comma. *)
Definition call_text (c : macro_call) : string :=
  match c with
  | ARM_FN func => fn_text func
  | REPEAT_2 handler => "REPEAT_2(" +:+ fn_text handler +:+ ")"
  | REPEAT_4 handler => "REPEAT_4(" +:+ fn_text handler +:+ ")"
  | REPEAT_8 handler => "REPEAT_8(" +:+ fn_text handler +:+ ")"
  | REPEAT_16 handler => "REPEAT_16(" +:+ fn_text handler +:+ ")"
  | REPEAT_32 handler => "REPEAT_32(" +:+ fn_text handler +:+ ")"
  | REPEAT_64 handler => "REPEAT_64(" +:+ fn_text handler +:+ ")"
  | REPEAT_128 handler => "REPEAT_128(" +:+ fn_text handler +:+ ")"
  | REPEAT_ALT a b => "REPEAT_ALT(" +:+ fn_text a +:+ ", " +:+ fn_text b +:+ ")"
  | REPEAT_2ALT a b => "REPEAT_2ALT(" +:+ fn_text a +:+ ", " +:+ fn_text b +:+ ")"
  | Listing funcs => String.concat ", " (fn_text <$> funcs)
  end.

(** *** [emit_repeat_macro], lines 335-376 *)

(** The first argument is a handler name or a pair of them. *)
Inductive handler_arg : Type :=
  | One (handler : string)
  | Two (a b : string).

(** A line of the table: the macro call of its code, its comment, and the
    span [start, start + count) of the table it was emitted for. *)
Record line : Type := Line {
  code : macro_call;
  comment : string;
  start_of : Z;
  count_of : Z
}.

Definition indent : string := "        ".

(** [f"{code}{' ' * pad_len}// {comment}"]. *)
Definition line_text (comment_col : Z) (l : line) : string :=
  let code := indent +:+ call_text (code l) +:+ "," in
  let pad_len := Z.max (comment_col - Z.of_nat (String.length code)) 1 in
  code +:+ times " " pad_len +:+ "// " +:+ comment l.

Definition span_text (start count : Z) : string :=
  "0x" +:+ format_03X start +:+ "-0x" +:+ format_03X (start + count - 1).

Definition emit_repeat_macro (handler : handler_arg) (count start : Z) : line :=
  match handler with
  | Two a b =>
      if count =? 4 then
        Line (REPEAT_ALT a b)
             (span_text start count +:+ ": " +:+ a +:+ "/" +:+ b +:+ " ABAB")
             start count
      else if count =? 4 then
        Line (REPEAT_2ALT a b)
             (span_text start count +:+ ": " +:+ a +:+ "/" +:+ b +:+ " AABBAABB")
             start count
      else
        Line (Listing ((λ i, if i mod 2 =? 0 then a else b) <$> range (Z.to_nat count)))
             (span_text start count +:+ ": " +:+ a +:+ "/" +:+ b +:+ " ALT")
             start count
  | One handler =>
      let code :=
        if count =? 1 then ARM_FN handler
        else if count =? 2 then REPEAT_2 handler
        else if count =? 4 then REPEAT_4 handler
        else if count =? 8 then REPEAT_8 handler
        else if count =? 16 then REPEAT_16 handler
        else if count =? 32 then REPEAT_32 handler
        else if count =? 64 then REPEAT_64 handler
        else if count =? 128 then REPEAT_128 handler
        else Listing (replicate (Z.to_nat count) handler) in
      let comment :=
        if count =? 1 then "0x" +:+ format_03X start +:+ ": " +:+ handler
        else span_text start count +:+ ": " +:+ handler in
      Line code comment start count
  end.

(** The string the Python function returns, [comment_col] at its default. *)
Definition emit_repeat_macro_text (handler : handler_arg) (count start : Z) : string :=
  line_text 52 (emit_repeat_macro handler count start).

(** *** [generate_cpp_table], lines 378-426 *)

(** The loop counters [i], [count] and [start] are natural numbers: they
    start at 0 or 1, grow by additions, and [count] shrinks only under the
    guard [count >= m].  [arr !! k] is [handler_array[k]] for such a [k],
    [None] being the [IndexError]. *)

Definition macros : list nat := [128; 64; 32; 16; 8; 4; 2; 1]%nat.

(** The [for j in range(4)] of a pattern check, leaving at the first entry
    that differs. *)
Fixpoint check_pattern (arr : list string) (i : nat) (expected : nat → string)
         (js : list nat) : option bool :=
  match js with
  | [] => Some true
  | j :: rest =>
      x ← arr !! (i + j)%nat;
      if String.eqb x (expected j) then check_pattern arr i expected rest
      else Some false
  end.

(** State of the outer loop after one pass of its body. *)
Abbreviation emitted := (list line * nat)%type.

(** Lines 385-397: the ABAB check.  [Return] is the [continue]. *)
Definition abab_block (arr : list string) (i : nat) (output : list line) : flow emitted :=
  if (i + 3 <? length arr)%nat then
    match arr !! i, arr !! (i + 1)%nat with
    | Some a, Some b =>
        match check_pattern arr i (λ j, if (j mod 2 =? 0)%nat then a else b)
                            [0; 1; 2; 3]%nat with
        | Some ababab =>
            if ababab && negb (String.eqb a b)
            then Return ((output ++ [emit_repeat_macro (Two a b) 4 (Z.of_nat i)])%list, (i + 4)%nat)
            else Pass
        | None => Raise
        end
    | _, _ => Raise
    end
  else Pass.

(** Lines 399-411: the AABB check. *)
Definition aabb_block (arr : list string) (i : nat) (output : list line) : flow emitted :=
  if (i + 3 <? length arr)%nat then
    match arr !! i, arr !! (i + 2)%nat with
    | Some a, Some b =>
        match check_pattern arr i (λ j, if (j <? 2)%nat then a else b)
                            [0; 1; 2; 3]%nat with
        | Some aabbaabb =>
            if aabbaabb && negb (String.eqb a b)
            then Return ((output ++ [emit_repeat_macro (Two a b) 4 (Z.of_nat i)])%list, (i + 4)%nat)
            else Pass
        | None => Raise
        end
    | _, _ => Raise
    end
  else Pass.

(** Lines 416-417: [while i + count < n and handler_array[i + count] == handler]. *)
Fixpoint count_run (fuel : nat) (arr : list string) (i : nat) (handler : string)
         (count : nat) : option nat :=
  match fuel with
  | O => None
  | S fuel' =>
      if (i + count <? length arr)%nat then
        x ← arr !! (i + count)%nat;
        if String.eqb x handler then count_run fuel' arr i handler (count + 1)%nat
        else Some count
      else Some count
  end.

(** Lines 418-424: [while count > 0], whose body takes the first macro
    that fits.  A [for] that ends without its [break] leaves the state as
    it was. *)
Fixpoint emit_blocks (fuel : nat) (handler : string) (start count : nat)
         (output : list line) : option emitted :=
  match fuel with
  | O => None
  | S fuel' =>
      if (0 <? count)%nat then
        match find (λ m, m <=? count)%nat macros with
        | Some m =>
            emit_blocks fuel' handler (start + m)%nat (count - m)%nat
              (output ++ [emit_repeat_macro (One handler) (Z.of_nat m) (Z.of_nat start)])%list
        | None => emit_blocks fuel' handler start count output
        end
      else Some (output, start)
  end.

(** Lines 413-425: the run of identical handlers. *)
Definition run_block (arr : list string) (i : nat) (output : list line) : option emitted :=
  handler ← arr !! i;
  count ← count_run (S (length arr)) arr i handler 1;
  emit_blocks (S count) handler i count output.

(** One pass of the body of the outer loop. *)
Definition iteration (arr : list string) (i : nat) (output : list line) : option emitted :=
  in_sequence [abab_block arr i output; aabb_block arr i output] (run_block arr i output).

Fixpoint outer_loop (fuel : nat) (arr : list string) (i : nat) (output : list line)
  : option (list line) :=
  match fuel with
  | O => None
  | S fuel' =>
      if (i <? length arr)%nat then
        '(output', i') ← iteration arr i output;
        outer_loop fuel' arr i' output'
      else Some output
  end.

(** The lines of the table; the Python function joins their texts with
    newlines. *)
Definition generate_cpp_table (handler_array : list string) : option (list line) :=
  outer_loop (S (length handler_array)) handler_array 0 [].

Definition generate_cpp_table_text (handler_array : list string) : option string :=
  (λ output, String.concat (String "010" "") (line_text 52 <$> output))
    <$> generate_cpp_table handler_array.

(** The table the generated lines stand for after preprocessing. *)
Definition expansion (output : list line) : list string :=
  l ← output; expand (code l).

End InstTable.


(** ** The cross-check of the two tables, [cross_check_tables.py] *)

Module CrossCheck.

(** [mgba_to_yours], lines 4-233. *)
Definition mgba_to_yours_items : list (string * string) :=
  [
    (* Data processing *)
    ("AND_LSL", "exec_arm_and_reg"); ("AND_LSR", "exec_arm_and_reg");
    ("AND_ASR", "exec_arm_and_reg"); ("AND_ROR", "exec_arm_and_reg");
    ("ANDS_LSL", "exec_arm_and_reg"); ("ANDS_LSR", "exec_arm_and_reg");
    ("ANDS_ASR", "exec_arm_and_reg"); ("ANDS_ROR", "exec_arm_and_reg");
    ("EOR_LSL", "exec_arm_eor_reg"); ("EOR_LSR", "exec_arm_eor_reg");
    ("EOR_ASR", "exec_arm_eor_reg"); ("EOR_ROR", "exec_arm_eor_reg");
    ("EORS_LSL", "exec_arm_eor_reg"); ("EORS_LSR", "exec_arm_eor_reg");
    ("EORS_ASR", "exec_arm_eor_reg"); ("EORS_ROR", "exec_arm_eor_reg");
    ("SUB_LSL", "exec_arm_sub_reg"); ("SUB_LSR", "exec_arm_sub_reg");
    ("SUB_ASR", "exec_arm_sub_reg"); ("SUB_ROR", "exec_arm_sub_reg");
    ("SUBS_LSL", "exec_arm_sub_reg"); ("SUBS_LSR", "exec_arm_sub_reg");
    ("SUBS_ASR", "exec_arm_sub_reg"); ("SUBS_ROR", "exec_arm_sub_reg");
    ("RSB_LSL", "exec_arm_rsb_reg"); ("RSB_LSR", "exec_arm_rsb_reg");
    ("RSB_ASR", "exec_arm_rsb_reg"); ("RSB_ROR", "exec_arm_rsb_reg");
    ("RSBS_LSL", "exec_arm_rsb_reg"); ("RSBS_LSR", "exec_arm_rsb_reg");
    ("RSBS_ASR", "exec_arm_rsb_reg"); ("RSBS_ROR", "exec_arm_rsb_reg");
    ("ADD_LSL", "exec_arm_add_reg"); ("ADD_LSR", "exec_arm_add_reg");
    ("ADD_ASR", "exec_arm_add_reg"); ("ADD_ROR", "exec_arm_add_reg");
    ("ADDS_LSL", "exec_arm_add_reg"); ("ADDS_LSR", "exec_arm_add_reg");
    ("ADDS_ASR", "exec_arm_add_reg"); ("ADDS_ROR", "exec_arm_add_reg");
    ("ADC_LSL", "exec_arm_adc_reg"); ("ADC_LSR", "exec_arm_adc_reg");
    ("ADC_ASR", "exec_arm_adc_reg"); ("ADC_ROR", "exec_arm_adc_reg");
    ("ADCS_LSL", "exec_arm_adc_reg"); ("ADCS_LSR", "exec_arm_adc_reg");
    ("ADCS_ASR", "exec_arm_adc_reg"); ("ADCS_ROR", "exec_arm_adc_reg");
    ("SBC_LSL", "exec_arm_sbc_reg"); ("SBC_LSR", "exec_arm_sbc_reg");
    ("SBC_ASR", "exec_arm_sbc_reg"); ("SBC_ROR", "exec_arm_sbc_reg");
    ("SBCS_LSL", "exec_arm_sbc_reg"); ("SBCS_LSR", "exec_arm_sbc_reg");
    ("SBCS_ASR", "exec_arm_sbc_reg"); ("SBCS_ROR", "exec_arm_sbc_reg");
    ("RSC_LSL", "exec_arm_rsc_reg"); ("RSC_LSR", "exec_arm_rsc_reg");
    ("RSC_ASR", "exec_arm_rsc_reg"); ("RSC_ROR", "exec_arm_rsc_reg");
    ("RSCS_LSL", "exec_arm_rsc_reg"); ("RSCS_LSR", "exec_arm_rsc_reg");
    ("RSCS_ASR", "exec_arm_rsc_reg"); ("RSCS_ROR", "exec_arm_rsc_reg");
    (* Multiply *)
    ("MUL", "exec_arm_mul"); ("MULS", "exec_arm_mul");
    ("MLA", "exec_arm_mla"); ("MLAS", "exec_arm_mla");
    ("UMULL", "exec_arm_umull"); ("UMULLS", "exec_arm_umull");
    ("UMLAL", "exec_arm_umlal"); ("UMLALS", "exec_arm_umlal");
    ("SMULL", "exec_arm_smull"); ("SMULLS", "exec_arm_smull");
    ("SMLAL", "exec_arm_smlal"); ("SMLALS", "exec_arm_smlal");
    (* Swap *)
    ("SWP", "exec_arm_swp"); ("SWPB", "exec_arm_swpb");
    (* PSR transfer *)
    ("MRS", "exec_arm_mrs"); ("MSR", "exec_arm_msr");
    ("MRSR", "exec_arm_undefined"); ("MSRR", "exec_arm_undefined");
    (* Test/compare *)
    ("TST_LSL", "exec_arm_tst_reg"); ("TST_LSR", "exec_arm_tst_reg");
    ("TST_ASR", "exec_arm_tst_reg"); ("TST_ROR", "exec_arm_tst_reg");
    ("TEQ_LSL", "exec_arm_teq_reg"); ("TEQ_LSR", "exec_arm_teq_reg");
    ("TEQ_ASR", "exec_arm_teq_reg"); ("TEQ_ROR", "exec_arm_teq_reg");
    ("CMP_LSL", "exec_arm_cmp_reg"); ("CMP_LSR", "exec_arm_cmp_reg");
    ("CMP_ASR", "exec_arm_cmp_reg"); ("CMP_ROR", "exec_arm_cmp_reg");
    ("CMN_LSL", "exec_arm_cmn_reg"); ("CMN_LSR", "exec_arm_cmn_reg");
    ("CMN_ASR", "exec_arm_cmn_reg"); ("CMN_ROR", "exec_arm_cmn_reg");
    (* Move/orr/bic/mvn *)
    ("ORR_LSL", "exec_arm_orr_reg"); ("ORR_LSR", "exec_arm_orr_reg");
    ("ORR_ASR", "exec_arm_orr_reg"); ("ORR_ROR", "exec_arm_orr_reg");
    ("ORRS_LSL", "exec_arm_orr_reg"); ("ORRS_LSR", "exec_arm_orr_reg");
    ("ORRS_ASR", "exec_arm_orr_reg"); ("ORRS_ROR", "exec_arm_orr_reg");
    ("MOV_LSL", "exec_arm_mov_reg"); ("MOV_LSR", "exec_arm_mov_reg");
    ("MOV_ASR", "exec_arm_mov_reg"); ("MOV_ROR", "exec_arm_mov_reg");
    ("MOVS_LSL", "exec_arm_mov_reg"); ("MOVS_LSR", "exec_arm_mov_reg");
    ("MOVS_ASR", "exec_arm_mov_reg"); ("MOVS_ROR", "exec_arm_mov_reg");
    ("BIC_LSL", "exec_arm_bic_reg"); ("BIC_LSR", "exec_arm_bic_reg");
    ("BIC_ASR", "exec_arm_bic_reg"); ("BIC_ROR", "exec_arm_bic_reg");
    ("BICS_LSL", "exec_arm_bic_reg"); ("BICS_LSR", "exec_arm_bic_reg");
    ("BICS_ASR", "exec_arm_bic_reg"); ("BICS_ROR", "exec_arm_bic_reg");
    ("MVN_LSL", "exec_arm_mvn_reg"); ("MVN_LSR", "exec_arm_mvn_reg");
    ("MVN_ASR", "exec_arm_mvn_reg"); ("MVN_ROR", "exec_arm_mvn_reg");
    ("MVNS_LSL", "exec_arm_mvn_reg"); ("MVNS_LSR", "exec_arm_mvn_reg");
    ("MVNS_ASR", "exec_arm_mvn_reg"); ("MVNS_ROR", "exec_arm_mvn_reg");
    (* Immediate variants (guessing) *)
    ("ANDI", "exec_arm_and_imm"); ("ANDSI", "exec_arm_and_imm");
    ("EORI", "exec_arm_eor_imm"); ("EORSI", "exec_arm_eor_imm");
    ("SUBI", "exec_arm_sub_imm"); ("SUBSI", "exec_arm_sub_imm");
    ("RSBI", "exec_arm_rsb_imm"); ("RSBSI", "exec_arm_rsb_imm");
    ("ADDI", "exec_arm_add_imm"); ("ADDSI", "exec_arm_add_imm");
    ("ADCI", "exec_arm_adc_imm"); ("ADCSI", "exec_arm_adc_imm");
    ("SBCI", "exec_arm_sbc_imm"); ("SBCSI", "exec_arm_sbc_imm");
    ("RSCI", "exec_arm_rsc_imm"); ("RSCSI", "exec_arm_rsc_imm");
    ("TSTI", "exec_arm_tst_imm"); ("TEQI", "exec_arm_teq_imm");
    ("CMPI", "exec_arm_cmp_imm"); ("CMNI", "exec_arm_cmn_imm");
    ("ORRI", "exec_arm_orr_imm"); ("ORRSI", "exec_arm_orr_imm");
    ("MOVI", "exec_arm_mov_imm"); ("MOVSI", "exec_arm_mov_imm");
    ("BICI", "exec_arm_bic_imm"); ("BICSI", "exec_arm_bic_imm");
    ("MVNI", "exec_arm_mvn_imm"); ("MVNSI", "exec_arm_mvn_imm");
    (* Single data transfer (guessing) *)
    ("STRI", "exec_arm_str_imm_pre_nowb"); ("LDRI", "exec_arm_ldr_imm_pre_nowb");
    ("STRTI", "exec_arm_str_imm_pre_wb"); ("LDRTI", "exec_arm_ldr_imm_pre_wb");
    ("STRBI", "exec_arm_strb_imm_pre_nowb"); ("LDRBI", "exec_arm_ldrb_imm_pre_nowb");
    ("STRBTI", "exec_arm_strb_imm_pre_wb"); ("LDRBTI", "exec_arm_ldrb_imm_pre_wb");
    ("STRIU", "exec_arm_str_imm_post_wb"); ("LDRIU", "exec_arm_ldr_imm_post_wb");
    ("STRTIU", "exec_arm_str_imm_post_wb"); ("LDRTIU", "exec_arm_ldr_imm_post_wb");
    ("STRBIU", "exec_arm_strb_imm_post_wb"); ("LDRBIU", "exec_arm_ldrb_imm_post_wb");
    ("STRBTIU", "exec_arm_strb_imm_post_wb"); ("LDRBTIU", "exec_arm_ldrb_imm_post_wb");
    (* Block data transfer *)
    ("STMDA", "exec_arm_stm"); ("LDMDA", "exec_arm_ldm");
    ("STMDAW", "exec_arm_stm"); ("LDMDAW", "exec_arm_ldm");
    ("STMSDA", "exec_arm_stm"); ("LDMSDA", "exec_arm_ldm");
    ("STMSDAW", "exec_arm_stm"); ("LDMSDAW", "exec_arm_ldm");
    ("STMIA", "exec_arm_stm"); ("LDMIA", "exec_arm_ldm");
    ("STMIAW", "exec_arm_stm"); ("LDMIAW", "exec_arm_ldm");
    ("STMSIA", "exec_arm_stm"); ("LDMSIA", "exec_arm_ldm");
    ("STMSIAW", "exec_arm_stm"); ("LDMSIAW", "exec_arm_ldm");
    ("STMDB", "exec_arm_stm"); ("LDMDB", "exec_arm_ldm");
    ("STMDBW", "exec_arm_stm"); ("LDMDBW", "exec_arm_ldm");
    ("STMSDB", "exec_arm_stm"); ("LDMSDB", "exec_arm_ldm");
    ("STMSDBW", "exec_arm_stm"); ("LDMSDBW", "exec_arm_ldm");
    ("STMIB", "exec_arm_stm"); ("LDMIB", "exec_arm_ldm");
    ("STMIBW", "exec_arm_stm"); ("LDMIBW", "exec_arm_ldm");
    ("STMSIB", "exec_arm_stm"); ("LDMSIB", "exec_arm_ldm");
    ("STMSIBW", "exec_arm_stm"); ("LDMSIBW", "exec_arm_ldm");
    (* Branch *)
    ("B", "exec_arm_b"); ("BL", "exec_arm_bl");
    (* Coprocessor *)
    ("STC", "exec_arm_stc_imm"); ("LDC", "exec_arm_ldc_imm");
    ("CDP", "exec_arm_undefined"); ("MCR", "exec_arm_undefined");
    ("MRC", "exec_arm_undefined");
    (* Software interrupt *)
    ("SWI", "exec_arm_software_interrupt");
    (* Undefined *)
    ("ILL", "exec_arm_undefined")
  ].

Definition mgba_to_yours : gmap string string := list_to_map mgba_to_yours_items.

(** *** The two parsers, lines 235-256

    A line is a [string] whose characters are the code points of the
    Python string, all below 256.  The two patterns are matched from the
    start of the line, as [re.match] does.  In both, what follows a
    repetition cannot begin with a character of the repeated class, so that
    taking as many characters as possible is the only way to match and the
    functions below need not back up. *)

(** The characters [\s] matches: those for which [str.isspace] holds. *)
Definition is_space (c : ascii) : bool :=
  let n := N_of_ascii c in
  ((9 <=? n) && (n <=? 13) || (28 <=? n) && (n <=? 32) || (n =? 133) || (n =? 160))%N.

(** [[0-9A-Fa-f]]. *)
Definition is_hex_digit (c : ascii) : bool :=
  let n := N_of_ascii c in
  ((48 <=? n) && (n <=? 57) || (65 <=? n) && (n <=? 70) || (97 <=? n) && (n <=? 102))%N.

(** [[a-zA-Z0-9_]]. *)
Definition is_word_char (c : ascii) : bool :=
  let n := N_of_ascii c in
  ((97 <=? n) && (n <=? 122) || (65 <=? n) && (n <=? 90)
   || (48 <=? n) && (n <=? 57) || (n =? 95))%N.

(** [[^)]]. *)
Definition is_not_paren (c : ascii) : bool := negb (N_of_ascii c =? 41)%N.

(** The longest prefix of characters of a class, and what follows it. *)
Fixpoint span (class : ascii → bool) (s : string) : string * string :=
  match s with
  | String c rest =>
      if class c then let '(taken, remainder) := span class rest in (String c taken, remainder)
      else ("", s)
  | EmptyString => ("", "")
  end.

(** [class*]: what follows the longest prefix. *)
Definition star (class : ascii → bool) (s : string) : string := (span class s).2.

(** [(class+)]: the group and what follows it. *)
Definition plus (class : ascii → bool) (s : string) : option (string * string) :=
  let '(taken, remainder) := span class s in
  if String.eqb taken "" then None else Some (taken, remainder).

(** A literal: what follows it. *)
Fixpoint literal (text s : string) : option string :=
  match text with
  | EmptyString => Some s
  | String c text' =>
      match s with
      | String c' s' => if Ascii.eqb c c' then literal text' s' else None
      | EmptyString => None
      end
  end.

(** The value of a hexadecimal digit. *)
Definition hex_digit_value (c : ascii) : Z :=
  let n := Z.of_N (N_of_ascii c) in
  if n <=? 57 then n - 48 else if n <=? 70 then n - 55 else n - 87.

Fixpoint hex_value (digits : string) (acc : Z) : Z :=
  match digits with
  | EmptyString => acc
  | String c rest => hex_value rest (16 * acc + hex_digit_value c)
  end.

(** [int(text, 16)] on a group of the form [0x] and hexadecimal digits,
    the only form the pattern lets through; [None] is the [ValueError]
    of any other text. *)
Definition int_16 (text : string) : option Z :=
  digits ← literal "0x" text;
  '(taken, remainder) ← plus is_hex_digit digits;
  if String.eqb remainder "" then Some (hex_value taken 0) else None.

(** [re.match(r'\s*\[(0x[0-9A-Fa-f]+)\]\s*=\s*([a-zA-Z0-9_]+),', line)]:
    the two groups. *)
Definition match_mgba (line : string) : option (string * string) :=
  s ← literal "[" (star is_space line);
  s ← literal "0x" s;
  '(digits, s) ← plus is_hex_digit s;
  s ← literal "]" s;
  s ← literal "=" (star is_space s);
  '(handler, s) ← plus is_word_char (star is_space s);
  _ ← literal "," s;
  Some ("0x" +:+ digits, handler).

(** [re.match(r'\s*ARM_FN\(([^)]+)\)', line)]: the group. *)
Definition match_your (line : string) : option string :=
  s ← literal "ARM_FN(" (star is_space line);
  '(handler, s) ← plus is_not_paren s;
  _ ← literal ")" s;
  Some handler.

(** The body of the loop of [parse_mgba_table]. *)
Definition parse_mgba_line (table : gmap Z string) (line : string)
  : option (gmap Z string) :=
  match match_mgba line with
  | Some (group1, handler) => key ← int_16 group1; Some (<[key := handler]> table)
  | None => Some table
  end.

(** [parse_mgba_table], from the lines of the file on. *)
Definition parse_mgba_table (lines : list string) : option (gmap Z string) :=
  InstTable.for_each lines parse_mgba_line ∅.

(** The loop of [parse_your_table] from line number [idx] on. *)
Fixpoint parse_your_lines (idx : Z) (lines : list string) (table : gmap Z string)
  : gmap Z string :=
  match lines with
  | [] => table
  | line :: rest =>
      parse_your_lines (idx + 1) rest
        match match_your line with
        | Some handler => <[idx := handler]> table
        | None => table
        end
  end.

(** [parse_your_table], from the lines of the file on. *)
Definition parse_your_table (lines : list string) : gmap Z string :=
  parse_your_lines 0 lines ∅.

(** What [main] prints: a line per mismatch, then the total. *)
Inductive printed : Type :=
  | Mismatch (key : Z) (mgba_handler mapped_handler your_handler : string)
  | Total (mismatches : Z).

(** [sorted(all_keys)]. *)
Definition sorted_keys (all_keys : gset Z) : list Z :=
  merge_sort Z.le (elements all_keys).

(** The body of the [for] loop of [main], lines 264-269, on the pair of
    what has been printed and the counter [mismatches]. *)
Definition check_key (mgba_table your_table : gmap Z string)
           (state : list printed * Z) (key : Z) : list printed * Z :=
  let '(out, mismatches) := state in
  let mgba_handler := get mgba_table key "ILL" in
  let your_handler := get your_table key "exec_arm_undefined" in
  let mapped_handler := get mgba_to_yours mgba_handler "(unmapped)" in
  if negb (String.eqb mapped_handler your_handler)
  then ((out ++ [Mismatch key mgba_handler mapped_handler your_handler])%list,
        mismatches + 1)
  else (out, mismatches).

(** [main], lines 258-270, from the two parsed tables on. *)
Definition main (mgba_table your_table : gmap Z string) : list printed :=
  let all_keys := dom mgba_table ∪ dom your_table in
  let '(out, mismatches) :=
    foldl (check_key mgba_table your_table) ([], 0) (sorted_keys all_keys) in
  (out ++ [Total mismatches])%list.

(** [main] from the lines of the two files on. *)
Definition main_of_lines (mgba_lines your_lines : list string) : option (list printed) :=
  mgba_table ← parse_mgba_table mgba_lines;
  Some (main mgba_table (parse_your_table your_lines)).

End CrossCheck.

(** * Vocabulary of the properties *)

Import InstTable.
Import CrossCheck.

(** The slice of bits_27_20 that [classify] names [b<27-k>]. *)
Definition bit (x : Z) (k : Z) : Z := Z.land (Z.shiftr x k) 1.

(** A boolean property checked on the 512 inputs. *)
Definition on_all_inputs (P : Z → Z → bool) : bool :=
  forallb (λ idx, forallb (P idx) [0; 1]) (range 256).

(** [classify] does not return [category] at this input. *)
Definition never_returns (category : string) (idx d : Z) : bool :=
  match classify idx d with
  | Some c => negb (String.eqb c category)
  | None => true
  end.

(** Equality of two results of [classify]. *)
Definition same_result (x y : option string) : bool :=
  match x, y with
  | Some a, Some b => String.eqb a b
  | None, None => true
  | _, _ => false
  end.

(** [classify] returns at this input. *)
Definition returns_a_category (idx d : Z) : bool :=
  match classify idx d with Some _ => true | None => false end.

(** b27 = 1, b26 = 1, b24 = 0. *)
Definition in_coprocessor_region (idx : Z) : bool :=
  (bit idx 7 =? 1) && (bit idx 6 =? 1) && (bit idx 4 =? 0).

(** The category the coprocessor rule gives from b20 and b25 alone. *)
Definition ldc_stc (idx : Z) : string :=
  (if bit idx 0 =? 1 then "LDC" else "STC")
  +:+ (if bit idx 5 =? 0 then "_IMM" else "_REG").

(** The check behind C5, for one input. *)
Definition coprocessor_check (idx d : Z) : bool :=
  if in_coprocessor_region idx
  then same_result (classify idx d) (classify (Z.lxor idx 4) d)
       && same_result (classify idx d) (Some (ldc_stc idx))
  else true.

(** [s.endswith(suffix)]. *)
Definition endswith (s suffix : string) : bool :=
  let n := String.length s in
  let k := String.length suffix in
  (k <=? n)%nat && String.eqb (String.substring (n - k) k s) suffix.

(** b27 = 0, b26 = 1, b24 = 0. *)
Definition in_post_index_region (idx : Z) : bool :=
  (bit idx 7 =? 0) && (bit idx 6 =? 1) && (bit idx 4 =? 0).

(** The check behind C6, for one input. *)
Definition post_index_check (idx d : Z) : bool :=
  match classify idx d with
  | Some c =>
      negb (endswith c "_POST_NOWB")
      && (if in_post_index_region idx && (d =? 0)
          then endswith c "_POST_WB" && same_result (classify (Z.lxor idx 2) d) (Some c)
          else true)
  | None => false
  end.

(** One of the four LDC/STC categories. *)
Definition is_ldc_stc (c : string) : bool :=
  String.eqb c "LDC_IMM" || String.eqb c "LDC_REG"
  || String.eqb c "STC_IMM" || String.eqb c "STC_REG".

(** The check behind C9, for one input. *)
Definition mrc_mcr_check (idx d : Z) : bool :=
  match classify idx d with
  | Some c =>
      negb (String.eqb c "MRC") && negb (String.eqb c "MCR")
      && (if in_coprocessor_region idx then is_ldc_stc c else true)
  | None => false
  end.

(** The entry is not the handler [name]. *)
Definition not_handler (name : string) (entry : option string) : bool :=
  match entry with
  | Some h => negb (String.eqb h name)
  | None => true
  end.

(** The check behind C10, for one input. *)
Definition handler_check (idx d : Z) : bool :=
  match classify idx d with
  | Some c =>
      match type_to_handler !! c with
      | Some h =>
          negb (String.prefix "Other DP" c) && negb (String.eqb c "Other SDT")
          && same_result (handler_array !! Z.to_nat (new_idx idx d)) (Some h)
          && Bool.eqb (String.eqb h "exec_arm_undefined") (String.eqb c "Undefined/Reserved")
      | None => false
      end
  | None => false
  end.

(** [opcode] is a key of [data_proc_map]. *)
Definition has_opcode (opcode : Z) : bool :=
  match data_proc_map !! opcode with Some _ => true | None => false end.

(** Number of 1 bits of the binary representation. *)
Fixpoint pos_popcount (p : positive) : nat :=
  match p with
  | xH => 1
  | xO q => pos_popcount q
  | xI q => S (pos_popcount q)
  end.

(** Number of 1 bits of a natural number. *)
Definition popcount (n : nat) : nat :=
  match N.of_nat n with
  | N0 => 0
  | Npos p => pos_popcount p
  end.

(** What the repertoire, whose largest macro is 128, needs for a run of
    length [n]. *)
Definition blocks_needed (n : nat) : nat := (n / 128 + popcount (n mod 128))%nat.

(** The lines [emit_blocks] appends for blocks of the given sizes. *)
Fixpoint block_lines (handler : string) (start : nat) (sizes : list nat) : list line :=
  match sizes with
  | [] => []
  | m :: rest =>
      emit_repeat_macro (One handler) (Z.of_nat m) (Z.of_nat start)
      :: block_lines handler (start + m) rest
  end.

(** The check behind [first_fit], for one length. *)
Definition first_fit_check (count : nat) : bool :=
  match find (λ m, m <=? count)%nat macros with
  | Some m =>
      bool_decide (m ∈ macros) && (0 <? m)%nat && (m <=? count)%nat
      && (blocks_needed count =? S (blocks_needed (count - m)))%nat
  | None => false
  end.

(** One more block of the repertoire needs at most one more line. *)
Definition one_more_check (r : nat) : bool :=
  forallb (λ m, blocks_needed (m + r) <=? S (blocks_needed r))%nat macros.

(** The part of the table a line was emitted for. *)
Definition slice (arr : list string) (l : line) : list string :=
  take (Z.to_nat (count_of l)) (drop (Z.to_nat (start_of l)) arr).

(** The line stands for its part of the table. *)
Definition faithful (arr : list string) (l : line) : Prop :=
  expand (code l) = slice arr l.

(** The line was written for an AABB span, as REPEAT_ALT. *)
Definition aabb_line (arr : list string) (l : line) : Prop :=
  ∃ a b, a ≠ b ∧ slice arr l = [a; a; b; b] ∧ code l = REPEAT_ALT a b.

(** [covers i ls j]: the spans of [ls] follow each other from [i] to [j],
    none empty, and each line stands for as many entries as its span
    has. *)
Inductive covers : nat → list line → nat → Prop :=
  | covers_nil (i : nat) : covers i [] i
  | covers_cons (i : nat) (l : line) (ls : list line) (j : nat) :
      start_of l = Z.of_nat i →
      0 < count_of l →
      length (expand (code l)) = Z.to_nat (count_of l) →
      covers (i + Z.to_nat (count_of l)) ls j →
      covers i (l :: ls) j.

(** Every line is one or the other. *)
Definition accounted (arr : list string) (l : line) : Prop :=
  faithful arr l ∨ aabb_line arr l.

(** What the loop body prints for a key, if anything. *)
Definition mismatch_at (mgba_table your_table : gmap Z string) (key : Z) : option printed :=
  let mgba_handler := get mgba_table key "ILL" in
  let your_handler := get your_table key "exec_arm_undefined" in
  let mapped_handler := get mgba_to_yours mgba_handler "(unmapped)" in
  if negb (String.eqb mapped_handler your_handler)
  then Some (Mismatch key mgba_handler mapped_handler your_handler)
  else None.

(** What the builder stores for an input: the handler of its category. *)
Definition handler_of (idx d : Z) : option string :=
  c ← classify idx d; Some (get type_to_handler c "exec_arm_undefined").

(** Membership of a name in a list of names. *)
Definition in_names (c : string) (names : list string) : bool :=
  existsb (String.eqb c) names.

(** The categories of the rules that ask for [mul_swp_bit == 1]. *)
Definition multiply_swap_names : list string :=
  ["MUL"; "MULS"; "MLA"; "MLAS"; "UMULL"; "UMULLS"; "UMLAL"; "UMLALS";
   "SMULL"; "SMULLS"; "SMLAL"; "SMLALS"; "SWP"; "SWPB"].

(** The compare and test categories. *)
Definition compare_names : list string :=
  ["TST_REG"; "TST_IMM"; "TEQ_REG"; "TEQ_IMM";
   "CMP_REG"; "CMP_IMM"; "CMN_REG"; "CMN_IMM"].

(** The status-register categories. *)
Definition psr_names : list string := ["MRS"; "MSR_REG"; "MSR_IMM"].

(** The three ways [classify] can see its second argument. *)
Definition discriminator_case (d : Z) : Z :=
  if d =? 0 then 0 else if d =? 1 then 1 else 2.

(** The check behind [classify_on_all_integers]. *)
Definition category_has_handler (y e : Z) : bool :=
  match classify y e with
  | Some c => match type_to_handler !! c with Some _ => true | None => false end
  | None => false
  end.

(** The check behind [discriminator_ignored_upper_half]. *)
Definition upper_half_check (y e : Z) : bool :=
  if bit y 7 =? 1
  then forallb (λ e', same_result (classify y e) (classify y e')) [0; 1; 2]
  else true.

(** The check behind [lower_half_discriminator]. *)
Definition lower_half_check (y e : Z) : bool :=
  match classify y e with
  | Some c =>
      (if in_names c multiply_swap_names
       then (e =? 1) && (bit y 7 =? 0) && (bit y 6 =? 0) && (bit y 5 =? 0)
       else true)
      && (if (bit y 7 =? 0) && negb (e =? 0)
          then String.eqb c "Undefined/Reserved"
               || ((e =? 1) && in_names c multiply_swap_names)
          else true)
  | None => false
  end.

(** The check behind [compare_rows_need_s_bit]. *)
Definition compare_rows_check (y e : Z) : bool :=
  match classify y e with
  | Some c =>
      (if in_names c compare_names then (bit y 0 =? 1) && (e =? 0) else true)
      && (if (e =? 0) && (bit y 7 =? 0) && (bit y 6 =? 0) && (bit y 4 =? 1)
             && (bit y 3 =? 0) && (bit y 0 =? 0)
          then in_names c psr_names
          else true)
  | None => false
  end.

(** The check behind [s_bit_keeps_handler]. *)
Definition s_bit_check (y e : Z) : bool :=
  if (bit y 7 =? 0) && (bit y 6 =? 0) && ((bit y 4 =? 0) || (bit y 3 =? 1))
  then same_result (handler_of y e) (handler_of (Z.lxor y 1) e)
  else true.

(** The lines the emitter writes: a macro for one handler, or REPEAT_ALT
    for two different handlers over a span of four; never REPEAT_2ALT and
    never an explicit listing. *)
Definition line_shape (l : line) : Prop :=
  match code l with
  | REPEAT_ALT a b => a ≠ b ∧ count_of l = 4
  | REPEAT_2ALT _ _ | Listing _ => False
  | _ => True
  end.

(** The handlers of the built table that are the image of no foreign
    name under [mgba_to_yours]. *)
Definition handlers_without_foreign_name : list string :=
  ["exec_arm_ldr_reg_pre_wb"; "exec_arm_ldr_reg_pre_nowb"; "exec_arm_ldr_reg_post_wb";
   "exec_arm_ldrb_reg_pre_wb"; "exec_arm_ldrb_reg_pre_nowb"; "exec_arm_ldrb_reg_post_wb";
   "exec_arm_str_reg_pre_wb"; "exec_arm_str_reg_pre_nowb"; "exec_arm_str_reg_post_wb";
   "exec_arm_strb_reg_pre_wb"; "exec_arm_strb_reg_pre_nowb"; "exec_arm_strb_reg_post_wb";
   "exec_arm_ldc_reg"; "exec_arm_stc_reg"; "exec_arm_msr_reg"; "exec_arm_msr_imm"].

(** All characters of a string are of a class. *)
Fixpoint all_chars (class : ascii → bool) (s : string) : bool :=
  match s with
  | EmptyString => true
  | String c rest => class c && all_chars class rest
  end.

(** A name that is not empty and has no closing parenthesis. *)
Definition plain_name (h : string) : bool :=
  negb (String.eqb h "") && all_chars is_not_paren h.

(** What [match_your] finds in the text of a line with this code. *)
Definition read_back (c : macro_call) : option string :=
  match c with
  | ARM_FN h => Some h
  | _ => None
  end.

(** The check behind the slot of each pass of the builder's loop. *)
Definition slot_check (idx d : Z) : bool :=
  (0 <=? new_idx idx d) && (new_idx idx d <? 512)
  && same_result (handler_array !! Z.to_nat (new_idx idx d)) (handler_of idx d).

(** A character that does not end a line when a file is read line by
    line: neither a line feed nor a carriage return. *)
Definition is_not_break (c : ascii) : bool :=
  let n := N_of_ascii c in negb ((n =? 10) || (n =? 13))%N.

(** A name that can stand in a line of the emitted file and be read back:
    not empty, no closing parenthesis, no line break. *)
Definition one_line_name (h : string) : bool :=
  plain_name h && all_chars is_not_break h.

(** The counts of the single-handler macros. *)
Definition macro_counts : list Z := [128; 64; 32; 16; 8; 4; 2; 1].

(** The line is what [emit_repeat_macro] returns for a name of the table
    and a count of [macros], or for two names of the table and four
    entries, at a start that is not negative. *)
Definition emitted_from (arr : list string) (l : line) : Prop :=
  (∃ h count start,
     h ∈ arr ∧ count ∈ macro_counts ∧ 0 ≤ start
     ∧ l = emit_repeat_macro (One h) count start)
  ∨ (∃ a b start,
       a ∈ arr ∧ b ∈ arr ∧ 0 ≤ start ∧ l = emit_repeat_macro (Two a b) 4 start).

(** * Properties *)

(** ** The embedding on examples *)

(** No key occurs twice in a dictionary literal, so that the order in
    which [list_to_map] inserts the items does not matter. *)
Lemma type_to_handler_keys : NoDup type_to_handler_items.*1.
Proof. apply (bool_decide_unpack _). vm_compute. exact I. Qed.

Lemma mgba_to_yours_keys : NoDup mgba_to_yours_items.*1.
Proof. apply (bool_decide_unpack _). vm_compute. exact I. Qed.

Example emit_repeat_32 :
  emit_repeat_macro_text (One "exec_arm_b") 32 0x140
  = "        REPEAT_32(ARM_FN(exec_arm_b)),              // 0x140-0x15F: exec_arm_b".
Proof. reflexivity. Qed.

Example emit_single :
  emit_repeat_macro_text (One "exec_arm_mrs") 1 0x20
  = "        ARM_FN(exec_arm_mrs),                       // 0x020: exec_arm_mrs".
Proof. reflexivity. Qed.

Example emit_pair :
  emit_repeat_macro_text (Two "exec_arm_and_reg" "exec_arm_mul") 4 0
  = "        REPEAT_ALT(ARM_FN(exec_arm_and_reg), ARM_FN(exec_arm_mul)), // 0x000-0x003: exec_arm_and_reg/exec_arm_mul ABAB".
Proof. reflexivity. Qed.

Example emit_listing :
  emit_repeat_macro_text (One "f") 3 0xFFE
  = "        ARM_FN(f), ARM_FN(f), ARM_FN(f),            // 0xFFE-0x1000: f".
Proof. reflexivity. Qed.

Example generate_small :
  option_map (map code) (generate_cpp_table ["a"; "b"; "a"; "b"; "c"; "c"; "c"; "d"; "d"; "e"])
  = Some [REPEAT_ALT "a" "b"; REPEAT_2 "c"; ARM_FN "c"; REPEAT_2 "d"; ARM_FN "e"].
Proof. reflexivity. Qed.

Example generate_aabb :
  option_map (map code) (generate_cpp_table ["d"; "d"; "e"; "e"]) = Some [REPEAT_ALT "d" "e"].
Proof. reflexivity. Qed.

Example cross_check_small :
  main (list_to_map [(0, "AND_LSL"); (3, "FOO"); (2, "B")])
       (list_to_map [(0, "exec_arm_and_reg"); (1, "exec_arm_b"); (2, "exec_arm_b")])
  = [Mismatch 1 "ILL" "exec_arm_undefined" "exec_arm_b";
     Mismatch 3 "FOO" "(unmapped)" "exec_arm_undefined";
     Total 2].
Proof. vm_compute. reflexivity. Qed.

(** ** Checking a property on all 512 inputs *)

Lemma range_In (n : nat) (z : Z) : 0 ≤ z < Z.of_nat n → In z (range n).
Proof.
  intros Hz. unfold range. apply in_map_iff. exists (Z.to_nat z).
  split; [lia |]. apply in_seq. lia.
Qed.

Lemma on_all_inputs_spec (P : Z → Z → bool) :
  on_all_inputs P = true →
  ∀ idx d, 0 ≤ idx < 256 → d = 0 ∨ d = 1 → P idx d = true.
Proof.
  unfold on_all_inputs. intros Hall idx d Hidx Hd.
  rewrite forallb_forall in Hall.
  specialize (Hall idx (range_In 256 idx Hidx)).
  rewrite forallb_forall in Hall. apply Hall.
  destruct Hd as [-> | ->]; simpl; auto.
Qed.

(** ** Spot checks of the classifier *)

(** C8: [classify(0x00, 1)] is MUL, [classify(0x00, 0)] is AND_REG,
    [classify(0xA0, 0)] is B and [classify(0xF0, 0)] is SWI. *)
Theorem classify_spot_checks :
  classify 0x00 1 = Some "MUL"
  ∧ classify 0x00 0 = Some "AND_REG"
  ∧ classify 0xA0 0 = Some "B"
  ∧ classify 0xF0 0 = Some "SWI".
Proof. repeat split; reflexivity. Qed.

(** ** The BX placeholder *)

Lemma never_returns_spec (category : string) :
  on_all_inputs (never_returns category) = true →
  ∀ idx d, 0 ≤ idx < 256 → d = 0 ∨ d = 1 → classify idx d ≠ Some category.
Proof.
  intros Hall idx d Hidx Hd Heq.
  pose proof (on_all_inputs_spec _ Hall idx d Hidx Hd) as Hc.
  unfold never_returns in Hc. rewrite Heq, String.eqb_refl in Hc. discriminate.
Qed.

(** C2, on the code: at bits 27-20 = 0b00100100 with discriminator 0 the
    data-processing block returns first, so the result is SUB_IMM, and no
    input at all reaches the BX placeholder. *)
Theorem bx_placeholder_shadowed :
  classify 0x24 0 = Some "SUB_IMM"
  ∧ ∀ idx d, 0 ≤ idx < 256 → d = 0 ∨ d = 1 → classify idx d ≠ Some "BX (possible)".
Proof.
  split; [reflexivity |].
  apply never_returns_spec. vm_compute. reflexivity.
Qed.

Lemma bx_placeholder_shadowed_at_0x25 :
  classify 0x25 1 ≠ Some "BX (possible)".
Proof. apply bx_placeholder_shadowed; [lia | right; reflexivity]. Defined.

(** ** Totality of the classifier and density of the table *)

Lemma same_result_eq (x y : option string) : same_result x y = true → x = y.
Proof.
  destruct x as [a |], y as [b |]; simpl; try discriminate; [| reflexivity].
  intros Hab. apply String.eqb_eq in Hab. congruence.
Qed.

(** Settles a goal that follows from a boolean check [chk] of all 512
    inputs: the check is evaluated, then read at the input in hand. *)
Ltac check_all_inputs chk Hidx Hd Hc :=
  let Hall := fresh "Hall" in
  assert (Hall : on_all_inputs chk = true) by (vm_compute; reflexivity);
  pose proof (on_all_inputs_spec _ Hall _ _ Hidx Hd) as Hc;
  clear Hall.

Lemma classify_total (opcode8 d : Z) :
  0 ≤ opcode8 < 256 → d = 0 ∨ d = 1 → ∃ category, classify opcode8 d = Some category.
Proof.
  intros Hidx Hd.
  assert (Hc : on_all_inputs returns_a_category = true) by (vm_compute; reflexivity).
  pose proof (on_all_inputs_spec _ Hc opcode8 d Hidx Hd) as Hr.
  unfold returns_a_category in Hr.
  destruct (classify opcode8 d) as [c |]; [eauto | discriminate].
Qed.

(** The two nested loops visit the pairs of [iterations], in that order. *)
Lemma for_each_app {St X : Type} (xs rest : list X) (body : St → X → option St) (s : St) :
  for_each (xs ++ rest) body s
  = match for_each xs body s with
    | Some s' => for_each rest body s'
    | None => None
    end.
Proof.
  revert s. induction xs as [| x xs IH]; intros s; [reflexivity |].
  simpl. destruct (body s x) as [s1 |]; [apply IH | reflexivity].
Qed.

Lemma for_each_fmap {St X Y : Type} (f : Y → X) (ys : list Y)
      (body : St → X → option St) (s : St) :
  for_each (f <$> ys) body s = for_each ys (λ s y, body s (f y)) s.
Proof.
  revert s. induction ys as [| y ys IH]; intros s; [reflexivity |].
  simpl. destruct (body s (f y)) as [s1 |]; [apply IH | reflexivity].
Qed.

Lemma bind_singleton_fmap {X Y : Type} (f : Y → X) (ys : list Y) :
  (y ← ys; [f y]) = f <$> ys.
Proof.
  induction ys as [| y ys IH]; [reflexivity |].
  rewrite bind_cons, fmap_cons, IH. reflexivity.
Qed.

Lemma for_each_nested {St X Y : Type} (xs : list X) (ys : list Y)
      (body : X → St → Y → option St) (s : St) :
  for_each xs (λ s x, for_each ys (body x) s) s
  = for_each (x ← xs; y ← ys; [(x, y)]) (λ s p, body p.1 s p.2) s.
Proof.
  revert s. induction xs as [| x xs IH]; intros s; [reflexivity |].
  rewrite bind_cons, for_each_app.
  rewrite bind_singleton_fmap, for_each_fmap. simpl.
  change (for_each ys (λ s0 y, body x s0 y) s) with (for_each ys (body x) s).
  destruct (for_each ys (body x) s) as [s1 |]; [apply IH | reflexivity].
Qed.

Lemma handler_array_built : build_handler_array = Some (Some <$> handler_array).
Proof. vm_compute. reflexivity. Qed.

Lemma assigned_indices : (λ p, new_idx p.1 p.2) <$> iterations = range 512.
Proof. vm_compute. reflexivity. Qed.

Lemma range_lookup (n k : nat) : (k < n)%nat → range n !! k = Some (Z.of_nat k).
Proof.
  intros Hk. unfold range. rewrite list_lookup_fmap, lookup_seq_lt by lia.
  reflexivity.
Qed.

Lemma range_NoDup (n : nat) : NoDup (range n).
Proof.
  unfold range. apply NoDup_fmap_2; [intros x y; lia | apply NoDup_seq].
Qed.

Lemma iterations_elem (p : Z * Z) :
  p ∈ iterations ↔ 0 ≤ p.1 < 256 ∧ (p.2 = 0 ∨ p.2 = 1).
Proof.
  unfold iterations. rewrite list_elem_of_bind. split.
  - intros (idx & Hp & Hidx). apply list_elem_of_bind in Hp as (d & Hp & Hd).
    apply list_elem_of_ret in Hp as ->. cbn [fst snd].
    apply list_elem_of_In, in_map_iff in Hidx as (n & <- & Hn). apply in_seq in Hn.
    split; [lia |].
    apply elem_of_cons in Hd as [-> | Hd]; [left; reflexivity |].
    apply elem_of_cons in Hd as [-> | Hd]; [right; reflexivity | inversion Hd].
  - destruct p as [idx d]. cbn [fst snd]. intros [Hidx Hd].
    exists idx. split; [| apply list_elem_of_In, range_In; assumption].
    apply list_elem_of_bind. exists d. split; [apply list_elem_of_ret; reflexivity |].
    destruct Hd as [-> | ->]; [left | right; left].
Qed.

(** One pass of the inner loop writes the slot [new_idx idx d], which is
    inside the array, and no other. *)
Lemma build_entry_slot (idx d : Z) (a : list (option string)) :
  0 ≤ idx < 256 → d = 0 ∨ d = 1 → length a = 512%nat →
  ∃ category,
    classify idx d = Some category
    ∧ 0 ≤ new_idx idx d < 512
    ∧ build_entry idx a d
      = Some (<[Z.to_nat (new_idx idx d)
                := Some (get type_to_handler category "exec_arm_undefined")]> a).
Proof.
  intros Hidx Hd Hlen.
  destruct (classify_total idx d Hidx Hd) as [c Hc].
  check_all_inputs slot_check Hidx Hd Hslot. unfold slot_check in Hslot.
  apply andb_prop in Hslot as [Hslot _]. apply andb_prop in Hslot as [Hlo Hhi].
  exists c. split; [assumption |].
  split; [apply Z.leb_le in Hlo; apply Z.ltb_lt in Hhi; lia |].
  unfold build_entry. rewrite Hc. cbn [mbind option_bind].
  unfold setitem, list_index. rewrite Hlen. change (Z.of_nat 512) with 512.
  rewrite Hlo, Hhi. reflexivity.
Qed.

(** C3: on each of the 512 inputs [classify] returns a category, and the
    builder ends with an array of 512 entries none of which is the [None]
    it started with.  Its two loops make one pass for each pair of an
    opcode byte and a discriminator and no other; the pass for [(idx, d)]
    writes the handler of the category into slot [new_idx idx d], inside
    the array, and leaves the other slots as they are; the slots written
    are 0, 1, ..., 511 one after the other, each once; and the finished
    array holds at slot [new_idx idx d] what that pass wrote. *)
Theorem classify_total_table_dense :
  (∀ opcode8 d, 0 ≤ opcode8 < 256 → d = 0 ∨ d = 1 →
     ∃ category, classify opcode8 d = Some category)
  ∧ ∃ arr, build_handler_array = Some arr
      ∧ length arr = 512%nat
      ∧ (∀ k, (k < 512)%nat → ∃ handler, arr !! k = Some (Some handler))
      ∧ build_handler_array
        = for_each iterations (λ a p, build_entry p.1 a p.2) (replicate 512 None)
      ∧ (λ p, new_idx p.1 p.2) <$> iterations = range 512
      ∧ NoDup ((λ p, new_idx p.1 p.2) <$> iterations)
      ∧ (∀ k, 0 ≤ k < 512 → k ∈ (λ p, new_idx p.1 p.2) <$> iterations)
      ∧ (∀ p, p ∈ iterations ↔ 0 ≤ p.1 < 256 ∧ (p.2 = 0 ∨ p.2 = 1))
      ∧ (∀ idx d (a : list (option string)),
           0 ≤ idx < 256 → d = 0 ∨ d = 1 → length a = 512%nat →
           ∃ category,
             classify idx d = Some category
             ∧ 0 ≤ new_idx idx d < 512
             ∧ build_entry idx a d
               = Some (<[Z.to_nat (new_idx idx d)
                         := Some (get type_to_handler category "exec_arm_undefined")]> a))
      ∧ (∀ idx d, 0 ≤ idx < 256 → d = 0 ∨ d = 1 →
           ∃ category,
             classify idx d = Some category
             ∧ arr !! Z.to_nat (new_idx idx d)
               = Some (Some (get type_to_handler category "exec_arm_undefined"))).
Proof.
  split; [exact classify_total |].
  exists (Some <$> handler_array).
  split; [exact handler_array_built |].
  split; [reflexivity |].
  split.
  { intros k Hk. rewrite list_lookup_fmap.
    destruct (handler_array !! k) as [h |] eqn:Hlk; [eauto |].
    apply lookup_ge_None in Hlk. change (length handler_array) with 512%nat in Hlk. lia. }
  split.
  { unfold build_handler_array, iterations. apply for_each_nested. }
  split; [exact assigned_indices |].
  rewrite assigned_indices.
  split; [apply range_NoDup |].
  split; [intros k Hk; apply list_elem_of_In, range_In; lia |].
  split; [exact iterations_elem |].
  split; [exact build_entry_slot |].
  intros idx d Hidx Hd.
  destruct (classify_total idx d Hidx Hd) as [c Hc].
  check_all_inputs slot_check Hidx Hd Hslot. unfold slot_check, handler_of in Hslot.
  apply andb_prop in Hslot as [_ Hentry]. apply same_result_eq in Hentry.
  rewrite Hc in Hentry. cbn [mbind option_bind] in Hentry.
  exists c. split; [assumption |].
  rewrite list_lookup_fmap, Hentry. reflexivity.
Qed.

(** ** The coprocessor rule *)

Lemma in_region (idx : Z) :
  bit idx 7 = 1 → bit idx 6 = 1 → bit idx 4 = 0 → in_coprocessor_region idx = true.
Proof.
  intros H7 H6 H4. unfold in_coprocessor_region. rewrite H7, H6, H4. reflexivity.
Qed.

(** C5: in the coprocessor region (b27 = 1, b26 = 1, b24 = 0) toggling b22,
    bit 2 of the opcode byte, leaves the category as it is, and the
    category is LDC or STC by b20 with _IMM or _REG by b25. *)
Theorem coprocessor_b22_invariant (opcode8 d : Z) :
  0 ≤ opcode8 < 256 → d = 0 ∨ d = 1 →
  bit opcode8 7 = 1 → bit opcode8 6 = 1 → bit opcode8 4 = 0 →
  classify opcode8 d = classify (Z.lxor opcode8 4) d
  ∧ classify opcode8 d = Some (ldc_stc opcode8).
Proof.
  intros Hidx Hd H7 H6 H4.
  check_all_inputs coprocessor_check Hidx Hd Hc.
  unfold coprocessor_check in Hc. rewrite in_region in Hc by assumption.
  apply andb_prop in Hc as [Hflip Hcat].
  split; apply same_result_eq; assumption.
Qed.

Lemma coprocessor_b22_invariant_witness :
  classify 0xC5 1 = classify (Z.lxor 0xC5 4) 1
  ∧ classify 0xC5 1 = Some (ldc_stc 0xC5).
Proof.
  apply (coprocessor_b22_invariant 0xC5 1);
    [lia | right; reflexivity | reflexivity | reflexivity | reflexivity].
Defined.

(** ** Post-indexed transfers *)

(** C6: a single-data-transfer key (b27 = 0, b26 = 1, discriminator 0) with
    b24 = 0 gets a category that ends in _POST_WB, the same one whatever
    b21 (bit 1 of the opcode byte) is; and no input gets a category that
    ends in _POST_NOWB. *)
Theorem post_index_always_writeback :
  (∀ opcode8, 0 ≤ opcode8 < 256 →
     bit opcode8 7 = 0 → bit opcode8 6 = 1 → bit opcode8 4 = 0 →
     ∃ c, classify opcode8 0 = Some c
          ∧ endswith c "_POST_WB" = true
          ∧ classify (Z.lxor opcode8 2) 0 = Some c)
  ∧ (∀ opcode8 d c, 0 ≤ opcode8 < 256 → d = 0 ∨ d = 1 →
       classify opcode8 d = Some c → endswith c "_POST_NOWB" = false).
Proof.
  split.
  - intros idx Hidx H7 H6 H4.
    assert (Hd : 0 = 0 ∨ 0 = 1) by (left; reflexivity).
    check_all_inputs post_index_check Hidx Hd Hc.
    unfold post_index_check in Hc.
    destruct (classify idx 0) as [c |]; [| discriminate].
    unfold in_post_index_region in Hc. rewrite H7, H6, H4 in Hc. simpl in Hc.
    apply andb_prop in Hc as [_ Hc]. apply andb_prop in Hc as [Hwb Hflip].
    exists c. split; [reflexivity |]. split; [assumption |].
    apply same_result_eq. assumption.
  - intros idx d c Hidx Hd Hcls.
    check_all_inputs post_index_check Hidx Hd Hc.
    unfold post_index_check in Hc. rewrite Hcls in Hc.
    apply andb_prop in Hc as [Hnowb _].
    apply negb_true_iff. assumption.
Qed.

(** ** MRC and MCR *)

Lemma forallb_not_handler (name : string) (arr : list (option string)) :
  forallb (not_handler name) arr = true → Some name ∉ arr.
Proof.
  intros Hall Hin. rewrite forallb_forall in Hall.
  apply list_elem_of_In, Hall in Hin. simpl in Hin.
  rewrite String.eqb_refl in Hin. discriminate.
Qed.

(** C9: no input is classified MRC or MCR, because in the coprocessor rule
    one of the four tests on (b22, b20) holds and the result is one of
    LDC_IMM, LDC_REG, STC_IMM, STC_REG; and neither [exec_arm_mrc] nor
    [exec_arm_mcr] is an entry of the array that the builder makes. *)
Theorem mrc_mcr_unreachable :
  (∀ opcode8 d, 0 ≤ opcode8 < 256 → d = 0 ∨ d = 1 →
     classify opcode8 d ≠ Some "MRC" ∧ classify opcode8 d ≠ Some "MCR")
  ∧ (∀ opcode8 d, 0 ≤ opcode8 < 256 → d = 0 ∨ d = 1 →
       bit opcode8 7 = 1 → bit opcode8 6 = 1 → bit opcode8 4 = 0 →
       ∃ c, classify opcode8 d = Some c ∧ is_ldc_stc c = true)
  ∧ (∀ b22 b20, (b22 = 0 ∨ b22 = 1) → (b20 = 0 ∨ b20 = 1) →
       ((((b22 =? 1) && (b20 =? 1)) || ((b22 =? 0) && (b20 =? 1))
         || ((b22 =? 1) && (b20 =? 0)) || ((b22 =? 0) && (b20 =? 0))) = true))
  ∧ ∃ arr, build_handler_array = Some arr
      ∧ length arr = 512%nat
      ∧ (Some "exec_arm_mrc" ∉ arr)
      ∧ (Some "exec_arm_mcr" ∉ arr).
Proof.
  split; [| split; [| split]].
  - intros idx d Hidx Hd.
    check_all_inputs mrc_mcr_check Hidx Hd Hc.
    unfold mrc_mcr_check in Hc.
    destruct (classify idx d) as [c |]; [| discriminate].
    apply andb_prop in Hc as [Hc _]. apply andb_prop in Hc as [Hmrc Hmcr].
    apply negb_true_iff, String.eqb_neq in Hmrc, Hmcr.
    split; congruence.
  - intros idx d Hidx Hd H7 H6 H4.
    check_all_inputs mrc_mcr_check Hidx Hd Hc.
    unfold mrc_mcr_check in Hc.
    destruct (classify idx d) as [c |]; [| discriminate].
    rewrite in_region in Hc by assumption.
    apply andb_prop in Hc as [_ Hc]. eauto.
  - intros b22 b20 [-> | ->] [-> | ->]; reflexivity.
  - exists (Some <$> handler_array).
    split; [exact handler_array_built |].
    split; [reflexivity |].
    split; apply forallb_not_handler; vm_compute; reflexivity.
Qed.

(** ** Every category has a handler *)

(** C10: the category of each of the 512 inputs is a key of
    [type_to_handler]; it is neither an "Other DP..." name nor "Other SDT",
    all sixteen opcodes being keys of [data_proc_map]; the entry the
    builder stores for the input is the handler found under that key, and
    it is [exec_arm_undefined] exactly when the category is
    Undefined/Reserved. *)
Theorem every_category_mapped :
  (∀ opcode, 0 ≤ opcode < 16 → is_Some (data_proc_map !! opcode))
  ∧ ∃ arr, build_handler_array = Some arr
      ∧ ∀ opcode8 d, 0 ≤ opcode8 < 256 → d = 0 ∨ d = 1 →
          ∃ c h, classify opcode8 d = Some c
                 ∧ type_to_handler !! c = Some h
                 ∧ get type_to_handler c "exec_arm_undefined" = h
                 ∧ String.prefix "Other DP" c = false
                 ∧ c ≠ "Other SDT"
                 ∧ arr !! Z.to_nat (new_idx opcode8 d) = Some (Some h)
                 ∧ (h = "exec_arm_undefined" ↔ c = "Undefined/Reserved").
Proof.
  split.
  - intros opcode Hop.
    assert (Hall : forallb has_opcode (range 16) = true) by (vm_compute; reflexivity).
    rewrite forallb_forall in Hall.
    specialize (Hall opcode (range_In 16 opcode Hop)). unfold has_opcode in Hall.
    destruct (data_proc_map !! opcode) as [name |]; [eauto | discriminate].
  - exists (Some <$> handler_array).
    split; [exact handler_array_built |].
    intros idx d Hidx Hd.
    check_all_inputs handler_check Hidx Hd Hc.
    unfold handler_check in Hc.
    destruct (classify idx d) as [c |]; [| discriminate].
    destruct (type_to_handler !! c) as [h |] eqn:Hkey; [| discriminate].
    apply andb_prop in Hc as [Hc Hund]. apply andb_prop in Hc as [Hc Hentry].
    apply andb_prop in Hc as [Hdp Hsdt].
    apply negb_true_iff in Hdp. apply negb_true_iff, String.eqb_neq in Hsdt.
    apply same_result_eq in Hentry. apply Bool.eqb_prop in Hund.
    exists c, h. split; [reflexivity |]. split; [exact Hkey |].
    split; [unfold get; rewrite Hkey; reflexivity |].
    split; [assumption |]. split; [assumption |].
    split; [rewrite list_lookup_fmap, Hentry; reflexivity |].
    rewrite <- !String.eqb_eq, Hund. reflexivity.
Qed.

(** ** Blocks of a uniform run *)

Section Blocks.

Local Open Scope nat_scope.

Lemma blocks_needed_add (x q : nat) : blocks_needed (x + q * 128) = q + blocks_needed x.
Proof.
  unfold blocks_needed. rewrite Nat.div_add, Nat.Div0.mod_add by lia. lia.
Qed.

(** The [for m in macros] always breaks when [count > 0], on a macro that
    saves one block. *)
Lemma first_fit (count : nat) :
  0 < count →
  ∃ m, find (λ m, m <=? count) macros = Some m
       ∧ m ∈ macros ∧ 0 < m ≤ count
       ∧ blocks_needed count = S (blocks_needed (count - m)).
Proof.
  intros Hpos. destruct (le_lt_dec 128 count) as [Hbig | Hsmall].
  - exists 128. split.
    { unfold macros. cbn [find]. destruct (Nat.leb_spec 128 count); [reflexivity | lia]. }
    split; [unfold macros; set_solver |]. split; [lia |].
    replace count with ((count - 128) + 1 * 128) at 1 by lia.
    rewrite blocks_needed_add. reflexivity.
  - assert (Hall : forallb first_fit_check (seq 1 127) = true) by (vm_compute; reflexivity).
    rewrite forallb_forall in Hall.
    assert (Hin : In count (seq 1 127)) by (apply in_seq; lia).
    specialize (Hall count Hin). unfold first_fit_check in Hall.
    destruct (find (λ m, m <=? count) macros) as [m |]; [| discriminate].
    apply andb_prop in Hall as [Hall Hneed]. apply andb_prop in Hall as [Hall Hle].
    apply andb_prop in Hall as [Hmem Hm].
    apply bool_decide_eq_true in Hmem. apply Nat.ltb_lt in Hm.
    apply Nat.leb_le in Hle. apply Nat.eqb_eq in Hneed.
    exists m. repeat split; assumption.
Qed.

(** [emit_blocks] with fuel above [count] ends, having appended one line
    per block; the blocks come from the repertoire, add up to [count] and
    are [blocks_needed count] in number. *)
Lemma emit_blocks_spec (handler : string) (fuel : nat) :
  ∀ count start output, count < fuel →
    ∃ sizes, emit_blocks fuel handler start count output
             = Some ((output ++ block_lines handler start sizes)%list, start + count)
         ∧ Forall (λ m, m ∈ macros) sizes
         ∧ sum_list sizes = count
         ∧ length sizes = blocks_needed count.
Proof.
  induction fuel as [| fuel IH]; intros count start output Hfuel; [lia |].
  cbn [emit_blocks]. destruct (Nat.ltb_spec 0 count) as [Hpos | Hzero].
  - destruct (first_fit count Hpos) as (m & Hfind & Hmem & Hm & Hneed).
    rewrite Hfind.
    destruct (IH (count - m) (start + m)
                 (output ++ [emit_repeat_macro (One handler) (Z.of_nat m) (Z.of_nat start)])%list)
      as (sizes & Hrun & Hall & Hsum & Hlen); [lia |].
    exists (m :: sizes). rewrite Hrun. cbn [block_lines].
    rewrite <- app_assoc. cbn [app].
    replace (start + m + (count - m)) with (start + count) by lia.
    split; [reflexivity |].
    split; [constructor; assumption |].
    split; [simpl; lia |].
    cbn [length]. rewrite Hneed, Hlen. reflexivity.
  - assert (count = 0) as -> by lia. exists [].
    cbn [block_lines]. rewrite app_nil_r, Nat.add_0_r.
    repeat split. constructor.
Qed.

Lemma blocks_needed_step (m a : nat) :
  m ∈ macros → blocks_needed (m + a) ≤ S (blocks_needed a).
Proof.
  intros Hmem.
  assert (Hall : forallb one_more_check (seq 0 128) = true) by (vm_compute; reflexivity).
  rewrite forallb_forall in Hall.
  assert (Hin : In (a mod 128) (seq 0 128)).
  { apply in_seq. pose proof (Nat.mod_upper_bound a 128). lia. }
  specialize (Hall _ Hin). unfold one_more_check in Hall.
  rewrite forallb_forall in Hall.
  apply list_elem_of_In, Hall, Nat.leb_le in Hmem.
  rewrite (Nat.div_mod_eq a 128) at 1 2.
  replace (m + (128 * (a / 128) + a mod 128))
    with ((m + a mod 128) + (a / 128) * 128) by lia.
  replace (128 * (a / 128) + a mod 128)
    with (a mod 128 + (a / 128) * 128) by lia.
  rewrite !blocks_needed_add. lia.
Qed.

(** No choice of blocks from the repertoire covers a run with fewer than
    [blocks_needed] of them. *)
Lemma blocks_needed_minimal (sizes : list nat) :
  Forall (λ m, m ∈ macros) sizes → blocks_needed (sum_list sizes) ≤ length sizes.
Proof.
  induction 1 as [| m sizes Hm Hall IH]; [vm_compute; lia |].
  simpl.
  pose proof (blocks_needed_step m (sum_list sizes) Hm). lia.
Qed.

Lemma blocks_needed_popcount (n : nat) : n < 256 → blocks_needed n = popcount n.
Proof.
  intros Hn.
  assert (Hall : forallb (λ n, blocks_needed n =? popcount n) (seq 0 256) = true)
    by (vm_compute; reflexivity).
  rewrite forallb_forall in Hall.
  apply Nat.eqb_eq, Hall, in_seq. lia.
Qed.

End Blocks.

Section Popcount.

Local Open Scope nat_scope.

(** A bit put below the others counts for itself. *)
Lemma popcount_bit (r m : nat) : r < 2 → popcount (r + 2 * m) = popcount m + r.
Proof.
  intros Hr. unfold popcount.
  assert (Hsum : N.of_nat (r + 2 * m) = (N.of_nat r + 2 * N.of_nat m)%N) by lia.
  rewrite Hsum. destruct (N.of_nat m) as [| p].
  - destruct r as [| [| r]]; [reflexivity | reflexivity | lia].
  - destruct r as [| [| r]]; [| | lia].
    + change (N.of_nat 0 + 2 * N.pos p)%N with (N.pos (xO p)). cbn [pos_popcount]. lia.
    + change (N.of_nat 1 + 2 * N.pos p)%N with (N.pos (xI p)). cbn [pos_popcount]. lia.
Qed.

Lemma popcount_div2 (n : nat) : popcount n = popcount (n / 2) + n mod 2.
Proof.
  rewrite (Nat.div_mod_eq n 2) at 1. rewrite Nat.add_comm.
  apply popcount_bit. apply Nat.mod_upper_bound. lia.
Qed.

(** The bits of [n] are those of [n / 2 ^ k] and those of [n mod 2 ^ k]. *)
Lemma popcount_split (k : nat) :
  ∀ n, popcount n = popcount (n / 2 ^ k) + popcount (n mod 2 ^ k).
Proof.
  induction k as [| k IH]; intros n.
  - cbn [Nat.pow]. rewrite Nat.div_1_r, Nat.mod_1_r. change (popcount 0) with 0. lia.
  - rewrite (popcount_div2 n), (IH (n / 2)).
    rewrite Nat.pow_succ_r', Nat.Div0.div_div, Nat.Div0.mod_mul_r.
    rewrite (popcount_bit (n mod 2) ((n / 2) mod 2 ^ k))
      by (apply Nat.mod_upper_bound; lia).
    lia.
Qed.

Lemma popcount_le (n : nat) : popcount n ≤ n.
Proof.
  induction n as [n IH] using lt_wf_ind.
  destruct (Nat.eq_dec n 0) as [-> | Hn]; [change (popcount 0) with 0; lia |].
  rewrite popcount_div2.
  assert (Hhalf : n / 2 < n) by (apply Nat.div_lt; lia).
  pose proof (IH _ Hhalf). pose proof (Nat.div_mod_eq n 2). lia.
Qed.

(** From 2 on a number has fewer 1 bits than its value. *)
Lemma popcount_lt (n : nat) : 2 ≤ n → popcount n < n.
Proof.
  intros Hn. rewrite popcount_div2.
  pose proof (popcount_le (n / 2)). pose proof (Nat.div_mod_eq n 2).
  assert (0 < n / 2); [| lia].
  apply Nat.div_str_pos. lia.
Qed.

(** [blocks_needed] is the number of 1 bits exactly below 256. *)
Lemma blocks_needed_popcount_iff (n : nat) : blocks_needed n = popcount n ↔ n < 256.
Proof.
  split; [| apply blocks_needed_popcount].
  intros Heq. destruct (le_lt_dec 256 n) as [Hbig | Hsmall]; [| assumption].
  exfalso. unfold blocks_needed in Heq. rewrite (popcount_split 7 n) in Heq.
  change (2 ^ 7) with 128 in Heq.
  assert (Hq : 2 ≤ n / 128) by (apply Nat.div_le_lower_bound; lia).
  pose proof (popcount_lt (n / 128) Hq). lia.
Qed.

End Popcount.

Section UniformRun.

Local Open Scope nat_scope.

Lemma block_lines_length (handler : string) (sizes : list nat) :
  ∀ start, length (block_lines handler start sizes) = length sizes.
Proof.
  induction sizes as [| m sizes IH]; intros start; [reflexivity |].
  cbn [block_lines length]. rewrite IH. reflexivity.
Qed.

(** A slice of equal entries, entry by entry. *)
Lemma uniform_slice (arr : list string) (i L : nat) (handler : string) :
  take L (drop i arr) = replicate L handler →
  ∀ j, j < L → arr !! (i + j) = Some handler.
Proof.
  intros Hslice j Hj.
  rewrite <- lookup_drop, <- (lookup_take_lt _ L) by assumption.
  rewrite Hslice. apply lookup_replicate_2. assumption.
Qed.

(** The inner [while] that measures the run ends, at the first entry that
    differs from [handler] or at the end of the table. *)
Lemma count_run_spec (arr : list string) (i : nat) (handler : string) (fuel : nat) :
  ∀ count,
    i + count ≤ length arr →
    length arr - (i + count) < fuel →
    (∀ j, j < count → arr !! (i + j) = Some handler) →
    ∃ L, count_run fuel arr i handler count = Some L
         ∧ count ≤ L
         ∧ (∀ j, j < L → arr !! (i + j) = Some handler)
         ∧ arr !! (i + L) ≠ Some handler.
Proof.
  induction fuel as [| fuel IH]; intros count Hbound Hfuel Hrun; [lia |].
  cbn [count_run]. destruct (Nat.ltb_spec (i + count) (length arr)) as [Hin | Hend].
  - destruct (arr !! (i + count)) as [x |] eqn:Hx.
    2:{ apply lookup_ge_None in Hx. lia. }
    cbn. destruct (String.eqb_spec x handler) as [-> | Hne].
    + destruct (IH (count + 1)) as (L & HL & Hle & Hall & Hstop); [lia | lia | |].
      { intros j Hj. destruct (decide (j = count)) as [-> | Hjc]; [assumption |].
        apply Hrun. lia. }
      exists L. repeat split; [assumption | lia | assumption | assumption].
    + exists count. repeat split; [lia | assumption |]. congruence.
  - exists count. repeat split; [lia | assumption |].
    rewrite (proj2 (lookup_ge_None arr (i + count))) by lia. discriminate.
Qed.

(** The measured length is the length of the maximal run. *)
Lemma count_run_maximal (arr : list string) (i L : nat) (handler : string) :
  1 ≤ L →
  (∀ j, j < L → arr !! (i + j) = Some handler) →
  arr !! (i + L) ≠ Some handler →
  count_run (S (length arr)) arr i handler 1 = Some L.
Proof.
  intros HL Hrun Hstop.
  assert (Hi : i < length arr).
  { apply lookup_lt_is_Some. exists handler. rewrite <- (Nat.add_0_r i). apply Hrun. lia. }
  destruct (count_run_spec arr i handler (S (length arr)) 1)
    as (L' & Hcount & Hle & Hrun' & Hstop'); [lia | lia | |].
  { intros j Hj. apply Hrun. lia. }
  rewrite Hcount. f_equal.
  destruct (Nat.lt_trichotomy L' L) as [Hlt | [Heq | Hgt]]; [| assumption |].
  - exfalso. apply Hstop'. apply Hrun. assumption.
  - exfalso. apply Hstop. apply Hrun'. assumption.
Qed.

(** C4, as the code has it: when neither alternation check fires at [i]
    and the maximal run of equal entries from [i] has length [L], the pass
    emits one line per block of the greedy decomposition and moves to
    [i + L]; the blocks are [L / 128 + popcount (L mod 128)] in number,
    which is [popcount L] exactly when [L < 256], and no choice of blocks
    from the repertoire that adds up to [L] has fewer. *)
Theorem uniform_run_blocks (arr : list string) (i L : nat) (handler : string)
        (output : list line) :
  abab_block arr i output = Pass →
  aabb_block arr i output = Pass →
  1 ≤ L →
  take L (drop i arr) = replicate L handler →
  arr !! (i + L) ≠ Some handler →
  ∃ sizes,
    iteration arr i output
    = Some ((output ++ block_lines handler i sizes)%list, i + L)
    ∧ Forall (λ m, m ∈ macros) sizes
    ∧ sum_list sizes = L
    ∧ length (block_lines handler i sizes) = L / 128 + popcount (L mod 128)
    ∧ (L < 256 → length (block_lines handler i sizes) = popcount L)
    ∧ (∀ other, Forall (λ m, m ∈ macros) other → sum_list other = L →
         length (block_lines handler i sizes) ≤ length other)
    ∧ (length (block_lines handler i sizes) = popcount L ↔ L < 256)
    ∧ (256 ≤ L → popcount L < length (block_lines handler i sizes)).
Proof.
  intros Habab Haabb HL Hslice Hstop.
  pose proof (uniform_slice arr i L handler Hslice) as Hrun.
  unfold iteration. rewrite Habab, Haabb. cbn [in_sequence].
  unfold run_block.
  assert (Hi0 : arr !! i = Some handler).
  { rewrite <- (Hrun 0) by lia. f_equal. lia. }
  rewrite Hi0. cbn [mbind option_bind].
  rewrite (count_run_maximal arr i L handler HL Hrun Hstop). cbn [mbind option_bind].
  destruct (emit_blocks_spec handler (S L) L i output) as (sizes & Hemit & Hall & Hsum & Hlen);
    [lia |].
  exists sizes. rewrite block_lines_length.
  split; [assumption |]. split; [assumption |]. split; [assumption |].
  split; [assumption |].
  split; [intros Hsmall; rewrite Hlen; apply blocks_needed_popcount; assumption |].
  split.
  { intros other Hother Hsum'. rewrite Hlen, <- Hsum'.
    apply blocks_needed_minimal. assumption. }
  split; [rewrite Hlen; apply blocks_needed_popcount_iff |].
  intros Hbig. rewrite Hlen. unfold blocks_needed.
  rewrite (popcount_split 7 L). change (2 ^ 7) with 128.
  assert (Hq : 2 ≤ L / 128) by (apply Nat.div_le_lower_bound; lia).
  pose proof (popcount_lt (L / 128) Hq). lia.
Qed.

(** A run of thirteen: blocks of 8, 4 and 1. *)
Lemma uniform_run_blocks_witness :
  ∃ sizes,
    iteration (replicate 13 "exec_arm_b" ++ ["exec_arm_bl"]) 0 []
    = Some (([] ++ block_lines "exec_arm_b" 0 sizes)%list, 0 + 13)
    ∧ Forall (λ m, m ∈ macros) sizes
    ∧ sum_list sizes = 13
    ∧ length (block_lines "exec_arm_b" 0 sizes) = 13 / 128 + popcount (13 mod 128)
    ∧ (13 < 256 → length (block_lines "exec_arm_b" 0 sizes) = popcount 13)
    ∧ (∀ other, Forall (λ m, m ∈ macros) other → sum_list other = 13 →
         length (block_lines "exec_arm_b" 0 sizes) ≤ length other)
    ∧ (length (block_lines "exec_arm_b" 0 sizes) = popcount 13 ↔ 13 < 256)
    ∧ (256 ≤ 13 → popcount 13 < length (block_lines "exec_arm_b" 0 sizes)).
Proof.
  apply (uniform_run_blocks (replicate 13 "exec_arm_b" ++ ["exec_arm_bl"]) 0 13
                            "exec_arm_b" []).
  - reflexivity.
  - reflexivity.
  - lia.
  - reflexivity.
  - vm_compute. discriminate.
Defined.

(** C4 as stated fails from length 256 on: a table of 512 equal entries
    is one run, no alternation is found at its start, and the pass emits
    four REPEAT_128 lines, while 512 has a single 1 bit. *)
Lemma uniform_512_takes_four_blocks :
  abab_block (replicate 512 "exec_arm_undefined") 0 [] = Pass
  ∧ aabb_block (replicate 512 "exec_arm_undefined") 0 [] = Pass
  ∧ ∃ out, iteration (replicate 512 "exec_arm_undefined") 0 [] = Some (out, 512)
      ∧ code <$> out
        = [REPEAT_128 "exec_arm_undefined"; REPEAT_128 "exec_arm_undefined";
           REPEAT_128 "exec_arm_undefined"; REPEAT_128 "exec_arm_undefined"]
      ∧ popcount 512 = 1
      ∧ length out ≠ popcount 512.
Proof.
  split; [reflexivity |]. split; [reflexivity |].
  eexists. split; [vm_compute; reflexivity |].
  split; [reflexivity |]. split; [reflexivity |].
  vm_compute. discriminate.
Qed.

End UniformRun.

(** ** Round trip of the emitted table *)

(** Both branches for a pair test [count == 4], so the first one takes
    every span of four and the REPEAT_2ALT line is never written. *)
Lemma repeat_2alt_never_emitted (handler : handler_arg) (count start : Z) (a b : string) :
  code (emit_repeat_macro handler count start) ≠ REPEAT_2ALT a b.
Proof.
  destruct handler as [h | x y]; cbn [emit_repeat_macro].
  - repeat match goal with |- context [if ?c then _ else _] => destruct c end;
      discriminate.
  - destruct (count =? 4); discriminate.
Qed.

(** The line written for an AABB span stands for ABAB. *)
Lemma aabb_line_expansion (a b : string) (start : Z) :
  expand (code (emit_repeat_macro (Two a b) 4 start)) = [a; b; a; b].
Proof. reflexivity. Qed.

(** C1, on the code: for the table the script itself builds, the emitter
    ends with lines that stand for 512 entries, but the span 0x100-0x103,
    which holds stm, stm, ldm, ldm, is written as REPEAT_ALT and stands
    for stm, ldm, stm, ldm; the expansion is not the table. *)
Theorem handler_array_round_trip_fails :
  length handler_array = 512%nat
  ∧ ∃ out, generate_cpp_table handler_array = Some out
      ∧ length (expansion out) = 512%nat
      ∧ take 4 (drop 0x100 handler_array)
        = ["exec_arm_stm"; "exec_arm_stm"; "exec_arm_ldm"; "exec_arm_ldm"]
      ∧ take 4 (drop 0x100 (expansion out))
        = ["exec_arm_stm"; "exec_arm_ldm"; "exec_arm_stm"; "exec_arm_ldm"]
      ∧ handler_array !! 0x101%nat ≠ expansion out !! 0x101%nat
      ∧ expansion out ≠ handler_array.
Proof.
  split; [reflexivity |].
  eexists. split; [vm_compute; reflexivity |].
  split; [reflexivity |]. split; [reflexivity |]. split; [reflexivity |].
  split.
  - vm_compute. discriminate.
  - intros Heq. apply (f_equal (λ l, l !! 0x101%nat)) in Heq.
    vm_compute in Heq. discriminate.
Qed.

(** *** What does hold for every table *)

Section Emitter.

Local Open Scope nat_scope.

Variable arr : list string.

Lemma covers_app (i j k : nat) (ls ls' : list line) :
  covers i ls j → covers j ls' k → covers i (ls ++ ls') k.
Proof.
  induction 1 as [i | i l ls j Hstart Hcount Hlen Hrest IH]; intros Hnext;
    [assumption |].
  cbn [app]. constructor; auto.
Qed.




Lemma slice_of_lookups (i m : nat) (xs : list string) :
  length xs = m →
  (∀ j, j < m → arr !! (i + j) = xs !! j) →
  take m (drop i arr) = xs.
Proof.
  intros Hlen Hlk. apply list_eq. intros j.
  destruct (decide (j < m)) as [Hj | Hj].
  - rewrite lookup_take_lt, lookup_drop by assumption. apply Hlk. assumption.
  - rewrite lookup_take_ge by lia. symmetry. apply lookup_ge_None. lia.
Qed.

(** A pattern check inside the table ends, and a [True] means that the
    entries are the expected ones. *)
Lemma check_pattern_spec (i : nat) (expected : nat → string) (js : list nat) :
  (∀ j, j ∈ js → i + j < length arr) →
  ∃ r, check_pattern arr i expected js = Some r
       ∧ (r = true → ∀ j, j ∈ js → arr !! (i + j) = Some (expected j)).
Proof.
  induction js as [| j js IH]; intros Hin.
  - exists true. split; [reflexivity |]. intros _ j Hj. inversion Hj.
  - cbn [check_pattern].
    destruct (arr !! (i + j)) as [x |] eqn:Hx.
    2:{ apply lookup_ge_None in Hx. specialize (Hin j ltac:(left)). lia. }
    cbn. destruct (String.eqb_spec x (expected j)) as [-> | Hne].
    + destruct IH as (r & Hr & Hall); [intros k Hk; apply Hin; right; assumption |].
      exists r. split; [assumption |].
      intros Htrue k Hk. apply elem_of_cons in Hk as [-> | Hk]; [assumption | auto].
    + exists false. split; [reflexivity | discriminate].
Qed.

Lemma four_in_table (i : nat) :
  i + 3 < length arr → ∀ j, j ∈ [0; 1; 2; 3] → i + j < length arr.
Proof.
  intros Hi j Hj. repeat (apply elem_of_cons in Hj as [-> | Hj]; [lia |]).
  inversion Hj.
Qed.

Lemma four_lookups (i : nat) (expected : nat → string) :
  (∀ j, j ∈ [0; 1; 2; 3] → arr !! (i + j) = Some (expected j)) →
  take 4 (drop i arr) = [expected 0; expected 1; expected 2; expected 3].
Proof.
  intros Hall. apply slice_of_lookups; [reflexivity |].
  intros j Hj. rewrite Hall.
  - do 4 (destruct j as [| j]; [reflexivity |]). lia.
  - do 4 (destruct j as [| j]; [set_solver |]). lia.
Qed.

Lemma pair_line (a b : string) (i : nat) :
  covers i [emit_repeat_macro (Two a b) 4 (Z.of_nat i)] (i + 4).
Proof.
  constructor; [reflexivity | reflexivity | reflexivity | apply covers_nil].
Qed.

Lemma pair_slice (a b : string) (i : nat) :
  slice arr (emit_repeat_macro (Two a b) 4 (Z.of_nat i)) = take 4 (drop i arr).
Proof. unfold slice. cbn [emit_repeat_macro Z.eqb Pos.eqb count_of start_of]. rewrite Nat2Z.id. reflexivity. Qed.

(** The ABAB block returns only with a faithful line. *)
Lemma abab_block_spec (i : nat) (output : list line) :
  abab_block arr i output = Pass
  ∨ ∃ l, abab_block arr i output = Return ((output ++ [l])%list, i + 4)
         ∧ i + 4 ≤ length arr ∧ covers i [l] (i + 4) ∧ faithful arr l
         ∧ line_shape l.
Proof.
  unfold abab_block. destruct (Nat.ltb_spec (i + 3) (length arr)) as [Hi | Hi]; [| left; reflexivity].
  destruct (arr !! i) as [a |] eqn:Ha.
  2:{ apply lookup_ge_None in Ha. lia. }
  destruct (arr !! (i + 1)) as [b |] eqn:Hb.
  2:{ apply lookup_ge_None in Hb. lia. }
  destruct (check_pattern_spec i (λ j, if j mod 2 =? 0 then a else b) [0; 1; 2; 3]
              (four_in_table i Hi)) as (r & -> & Hr).
  destruct r; [| left; reflexivity].
  destruct (String.eqb_spec a b) as [Hab | Hab]; [left; reflexivity |].
  right. eexists. split; [reflexivity |]. split; [lia |]. split; [apply pair_line |].
  split; [| split; [assumption | reflexivity]].
  unfold faithful. rewrite pair_slice, (four_lookups i _ (Hr eq_refl)). reflexivity.
Qed.

(** The AABB block returns with a REPEAT_ALT line for an AABB span. *)
Lemma aabb_block_spec (i : nat) (output : list line) :
  aabb_block arr i output = Pass
  ∨ ∃ l, aabb_block arr i output = Return ((output ++ [l])%list, i + 4)
         ∧ i + 4 ≤ length arr ∧ covers i [l] (i + 4) ∧ aabb_line arr l
         ∧ line_shape l.
Proof.
  unfold aabb_block. destruct (Nat.ltb_spec (i + 3) (length arr)) as [Hi | Hi]; [| left; reflexivity].
  destruct (arr !! i) as [a |] eqn:Ha.
  2:{ apply lookup_ge_None in Ha. lia. }
  destruct (arr !! (i + 2)) as [b |] eqn:Hb.
  2:{ apply lookup_ge_None in Hb. lia. }
  destruct (check_pattern_spec i (λ j, if j <? 2 then a else b) [0; 1; 2; 3]
              (four_in_table i Hi)) as (r & -> & Hr).
  destruct r; [| left; reflexivity].
  destruct (String.eqb_spec a b) as [Hab | Hab]; [left; reflexivity |].
  right. eexists. split; [reflexivity |]. split; [lia |]. split; [apply pair_line |].
  split; [| split; [assumption | reflexivity]].
  exists a, b. split; [assumption |]. split; [| reflexivity].
  rewrite pair_slice, (four_lookups i _ (Hr eq_refl)). reflexivity.
Qed.

Lemma expand_block (handler : string) (m : nat) (start : Z) :
  m ∈ macros →
  expand (code (emit_repeat_macro (One handler) (Z.of_nat m) start)) = replicate m handler.
Proof.
  intros Hm. unfold macros in Hm.
  repeat (apply elem_of_cons in Hm as [-> | Hm]; [reflexivity |]).
  inversion Hm.
Qed.

Lemma macro_positive (m : nat) : m ∈ macros → 0 < m.
Proof.
  intros Hm. unfold macros in Hm.
  repeat (apply elem_of_cons in Hm as [-> | Hm]; [lia |]).
  inversion Hm.
Qed.

Lemma block_shape (handler : string) (m : nat) (start : Z) :
  m ∈ macros → line_shape (emit_repeat_macro (One handler) (Z.of_nat m) start).
Proof.
  intros Hm. unfold macros in Hm.
  repeat (apply elem_of_cons in Hm as [-> | Hm]; [exact I |]).
  inversion Hm.
Qed.

(** The lines of a run of equal entries cover it and are faithful. *)
Lemma block_lines_spec (handler : string) (sizes : list nat) :
  ∀ start,
    Forall (λ m, m ∈ macros) sizes →
    (∀ j, j < sum_list sizes → arr !! (start + j) = Some handler) →
    covers start (block_lines handler start sizes) (start + sum_list sizes)
    ∧ Forall (faithful arr) (block_lines handler start sizes)
    ∧ Forall line_shape (block_lines handler start sizes).
Proof.
  induction sizes as [| m sizes IH]; intros start Hall Hrun.
  - cbn. rewrite Nat.add_0_r. repeat split; constructor.
  - apply Forall_cons in Hall as [Hm Hall]. cbn [block_lines].
    simpl sum_list in *.
    destruct (IH (start + m) Hall) as (Hcov & Hfaith & Hshape).
    { intros j Hj. rewrite <- Nat.add_assoc. apply Hrun. lia. }
    assert (Hspan : ∀ l, l = emit_repeat_macro (One handler) (Z.of_nat m) (Z.of_nat start) →
                         start_of l = Z.of_nat start ∧ count_of l = Z.of_nat m).
    { intros l ->. split; reflexivity. }
    destruct (Hspan _ eq_refl) as [Hstart Hcount].
    pose proof (macro_positive m Hm) as Hpos.
    split.
    + constructor.
      * assumption.
      * rewrite Hcount. lia.
      * rewrite expand_block, Hcount, Nat2Z.id, length_replicate by assumption. reflexivity.
      * rewrite Hcount, Nat2Z.id, Nat.add_assoc. assumption.
    + split; [| constructor; [apply block_shape; assumption | assumption]].
      constructor; [| assumption].
      unfold faithful, slice. rewrite expand_block, Hcount, Hstart, !Nat2Z.id by assumption.
      symmetry. apply slice_of_lookups; [apply length_replicate |].
      intros j Hj. rewrite Hrun by lia. symmetry. apply lookup_replicate_2. assumption.
Qed.

(** One pass of the outer loop inside the table ends, moves on, and
    appends lines that cover the part it skips. *)
Lemma iteration_spec (i : nat) (output : list line) :
  i < length arr →
  ∃ lines i', iteration arr i output = Some ((output ++ lines)%list, i')
              ∧ i < i' ≤ length arr
              ∧ covers i lines i'
              ∧ Forall (accounted arr) lines
              ∧ Forall line_shape lines.
Proof.
  intros Hi. unfold iteration.
  destruct (abab_block_spec i output) as [-> | (l & -> & Hend & Hcov & Hl & Hs)].
  2:{ exists [l], (i + 4). cbn [in_sequence]. split; [reflexivity |].
      split; [lia |]. split; [assumption |].
      split; repeat constructor; assumption. }
  destruct (aabb_block_spec i output) as [-> | (l & -> & Hend & Hcov & Hl & Hs)].
  2:{ exists [l], (i + 4). cbn [in_sequence]. split; [reflexivity |].
      split; [lia |]. split; [assumption |].
      split; constructor; [right; assumption | constructor | assumption | constructor]. }
  cbn [in_sequence]. unfold run_block.
  destruct (arr !! i) as [handler |] eqn:Hh.
  2:{ apply lookup_ge_None in Hh. lia. }
  cbn [mbind option_bind].
  destruct (count_run_spec arr i handler (S (length arr)) 1)
    as (L & -> & HL & Hrun & Hstop); [lia | lia | |].
  { intros j Hj. replace j with 0 by lia. rewrite Nat.add_0_r. assumption. }
  cbn [mbind option_bind].
  destruct (emit_blocks_spec handler (S L) L i output)
    as (sizes & -> & Hall & Hsum & _); [lia |].
  destruct (block_lines_spec handler sizes i Hall) as (Hcov & Hfaith & Hshape).
  { rewrite Hsum. assumption. }
  rewrite Hsum in Hcov.
  exists (block_lines handler i sizes), (i + L). split; [reflexivity |].
  split.
  { split; [lia |]. destruct (decide (i + L ≤ length arr)) as [Hle | Hgt]; [assumption |].
    specialize (Hrun (L - 1) ltac:(lia)). apply lookup_lt_Some in Hrun. lia. }
  split; [assumption |]. split; [| assumption].
  eapply Forall_impl; [exact Hfaith |]. intros l Hl. left. assumption.
Qed.

Lemma outer_loop_spec (fuel : nat) :
  ∀ i output,
    i ≤ length arr → length arr - i < fuel →
    ∃ lines, outer_loop fuel arr i output = Some (output ++ lines)%list
             ∧ covers i lines (length arr)
             ∧ Forall (accounted arr) lines
             ∧ Forall line_shape lines.
Proof.
  induction fuel as [| fuel IH]; intros i output Hi Hfuel; [lia |].
  cbn [outer_loop]. destruct (Nat.ltb_spec i (length arr)) as [Hin | Hout].
  - destruct (iteration_spec i output Hin) as (lines & i' & -> & Hi' & Hcov & Hacc & Hs).
    cbn [mbind option_bind].
    destruct (IH i' (output ++ lines)%list) as (rest & -> & Hcov' & Hacc' & Hs');
      [lia | lia |].
    exists (lines ++ rest)%list. rewrite app_assoc.
    split; [reflexivity |]. split; [eapply covers_app; eassumption |].
    split; apply Forall_app; split; assumption.
  - exists []. rewrite app_nil_r. replace i with (length arr) by lia.
    split; [reflexivity |]. repeat split; constructor.
Qed.



(** X9: whatever the table, the emitter writes only macros for one
    handler and REPEAT_ALT lines for two different handlers over four
    entries; it never writes REPEAT_2ALT nor an explicit listing. *)
Theorem generated_line_shapes (out : list line) :
  generate_cpp_table arr = Some out → Forall line_shape out.
Proof.
  unfold generate_cpp_table. intros Hgen.
  destruct (outer_loop_spec (S (length arr)) 0 []) as (out' & Hout & _ & _ & Hs);
    [lia | lia |].
  rewrite Hgen in Hout. injection Hout as ->. assumption.
Qed.

End Emitter.

(** ** The cross-check *)

Lemma check_key_eq (mgba_table your_table : gmap Z string)
      (out : list printed) (mismatches key : Z) :
  check_key mgba_table your_table (out, mismatches) key
  = match mismatch_at mgba_table your_table key with
    | Some p => ((out ++ [p])%list, mismatches + 1)
    | None => (out, mismatches)
    end.
Proof.
  unfold check_key, mismatch_at. destruct (negb _); reflexivity.
Qed.

Lemma omap_cons_eq {A B : Type} (f : A → option B) (x : A) (l : list A) :
  omap f (x :: l) = match f x with Some y => y :: omap f l | None => omap f l end.
Proof. reflexivity. Qed.

(** The loop goes through all of its keys, whatever it finds. *)
Lemma check_keys (mgba_table your_table : gmap Z string) (keys : list Z) :
  ∀ out mismatches,
    foldl (check_key mgba_table your_table) (out, mismatches) keys
    = ((out ++ omap (mismatch_at mgba_table your_table) keys)%list,
       mismatches + Z.of_nat (length (omap (mismatch_at mgba_table your_table) keys))).
Proof.
  induction keys as [| key keys IH]; intros out mismatches.
  - cbn. rewrite app_nil_r, Z.add_0_r. reflexivity.
  - cbn [foldl]. rewrite check_key_eq, !omap_cons_eq.
    destruct (mismatch_at mgba_table your_table key) as [p |].
    + rewrite IH, <- app_assoc. cbn [app length].
      replace (mismatches + 1 + Z.of_nat (length (omap (mismatch_at mgba_table your_table) keys)))
        with (mismatches + Z.of_nat (S (length (omap (mismatch_at mgba_table your_table) keys))))
        by lia.
      reflexivity.
    + apply IH.
Qed.

Lemma sorted_keys_elem (all_keys : gset Z) (key : Z) :
  key ∈ sorted_keys all_keys ↔ key ∈ all_keys.
Proof.
  unfold sorted_keys. rewrite merge_sort_Permutation. apply elem_of_elements.
Qed.

Lemma sorted_keys_NoDup (all_keys : gset Z) : NoDup (sorted_keys all_keys).
Proof.
  unfold sorted_keys. rewrite merge_sort_Permutation. apply NoDup_elements.
Qed.

Lemma mismatch_at_spec (mgba_table your_table : gmap Z string) (key : Z) :
  (get mgba_to_yours (get mgba_table key "ILL") "(unmapped)"
   ≠ get your_table key "exec_arm_undefined"
   ∧ mismatch_at mgba_table your_table key
     = Some (Mismatch key (get mgba_table key "ILL")
               (get mgba_to_yours (get mgba_table key "ILL") "(unmapped)")
               (get your_table key "exec_arm_undefined")))
  ∨ (get mgba_to_yours (get mgba_table key "ILL") "(unmapped)"
     = get your_table key "exec_arm_undefined"
     ∧ mismatch_at mgba_table your_table key = None).
Proof.
  unfold mismatch_at.
  generalize (get mgba_to_yours (get mgba_table key "ILL") "(unmapped)") as mapped_handler.
  generalize (get your_table key "exec_arm_undefined") as your_handler.
  generalize (get mgba_table key "ILL") as mgba_handler.
  intros mgba_handler your_handler mapped_handler.
  destruct (String.eqb_spec mapped_handler your_handler) as [Heq | Hne];
    [right | left]; split; auto.
Qed.

Lemma mismatch_at_key (mgba_table your_table : gmap Z string) (key : Z) (p : printed) :
  mismatch_at mgba_table your_table key = Some p →
  ∃ mgba_handler mapped_handler your_handler,
    p = Mismatch key mgba_handler mapped_handler your_handler.
Proof.
  unfold mismatch_at. destruct (negb _); [| discriminate].
  intros [= <-]. eauto.
Qed.

Lemma NoDup_omap_keys (mgba_table your_table : gmap Z string) (keys : list Z) :
  NoDup keys → NoDup (omap (mismatch_at mgba_table your_table) keys).
Proof.
  induction 1 as [| key keys Hnotin Hnodup IH]; [constructor |].
  rewrite omap_cons_eq.
  destruct (mismatch_at mgba_table your_table key) as [p |] eqn:Hp; [| assumption].
  constructor; [| assumption].
  intros Hin. apply list_elem_of_omap in Hin as (key' & Hin' & Hp').
  apply mismatch_at_key in Hp as (f & e & a & ->).
  apply mismatch_at_key in Hp' as (f' & e' & a' & [= -> _ _ _]).
  contradiction.
Qed.

(** C7: [main] prints the recorded mismatches and then their number.  A
    key of either table is among them, with the foreign name (ILL when the
    key is missing there), its image under [mgba_to_yours] ("(unmapped)"
    when it has none) and the local name ([exec_arm_undefined] when the
    key is missing there), exactly when the image differs from the local
    name; nothing else is recorded, no mismatch twice, and the keys are
    visited in ascending order to the last. *)
Theorem cross_check_reports_every_mismatch (mgba_table your_table : gmap Z string) :
  ∃ reported : list printed,
    main mgba_table your_table = (reported ++ [Total (Z.of_nat (length reported))])%list
    ∧ reported
      = omap (mismatch_at mgba_table your_table)
             (sorted_keys (dom mgba_table ∪ dom your_table))
    ∧ Sorted Z.le (sorted_keys (dom mgba_table ∪ dom your_table))
    ∧ NoDup reported
    ∧ (∀ key, key ∈ dom mgba_table ∪ dom your_table →
         let mgba_handler := get mgba_table key "ILL" in
         let mapped_handler := get mgba_to_yours mgba_handler "(unmapped)" in
         let your_handler := get your_table key "exec_arm_undefined" in
         Mismatch key mgba_handler mapped_handler your_handler ∈ reported
         ↔ mapped_handler ≠ your_handler)
    ∧ (∀ p, p ∈ reported →
         ∃ key, key ∈ dom mgba_table ∪ dom your_table
           ∧ p = Mismatch key (get mgba_table key "ILL")
                   (get mgba_to_yours (get mgba_table key "ILL") "(unmapped)")
                   (get your_table key "exec_arm_undefined")
           ∧ get mgba_to_yours (get mgba_table key "ILL") "(unmapped)"
             ≠ get your_table key "exec_arm_undefined").
Proof.
  exists (omap (mismatch_at mgba_table your_table)
               (sorted_keys (dom mgba_table ∪ dom your_table))).
  split.
  { unfold main. rewrite check_keys. cbn [app]. rewrite Z.add_0_l. reflexivity. }
  split; [reflexivity |].
  split.
  { unfold sorted_keys. apply Sorted_merge_sort. intros x y. lia. }
  split; [apply NoDup_omap_keys, sorted_keys_NoDup |].
  split.
  - intros key Hkey. cbn zeta.
    pose proof (mismatch_at_spec mgba_table your_table key) as Hspec. revert Hspec.
    generalize (get mgba_to_yours (get mgba_table key "ILL") "(unmapped)") as mapped_handler.
    generalize (get your_table key "exec_arm_undefined") as your_handler.
    generalize (get mgba_table key "ILL") as mgba_handler.
    intros mgba_handler your_handler mapped_handler [[Hne Hsome] | [Heq Hnone]].
    + split; [intros _; exact Hne |]. intros _.
      apply list_elem_of_omap. exists key.
      split; [apply sorted_keys_elem; assumption | exact Hsome].
    + split; [| intros Hne; contradiction].
      intros Hin. apply list_elem_of_omap in Hin as (key' & _ & Hp).
      assert (key' = key) as ->.
      { apply mismatch_at_key in Hp as (f' & e' & a' & Hp).
        injection Hp as -> _ _ _. reflexivity. }
      rewrite Hnone in Hp. discriminate Hp.
  - intros p Hp. apply list_elem_of_omap in Hp as (key & Hkey & Hp).
    apply sorted_keys_elem in Hkey. exists key. split; [assumption |].
    destruct (mismatch_at_spec mgba_table your_table key) as [[Hne Hsome] | [_ Hnone]].
    + split; [| exact Hne]. rewrite Hsome in Hp. injection Hp as <-. reflexivity.
    + rewrite Hnone in Hp. discriminate Hp.
Qed.

(** * Further properties of the classifier *)

Section LowByte.

Lemma testbit_one (n : Z) : 0 ≤ n → Z.testbit 1 n = (n =? 0).
Proof.
  intros Hn. destruct (Z.eqb_spec n 0) as [-> | Hne]; [reflexivity |].
  apply Z.bits_above_log2; simpl; lia.
Qed.

Lemma bit_low_byte (x k : Z) : 0 ≤ k < 8 → bit (x mod 256) k = bit x k.
Proof.
  intros Hk. unfold bit. apply Z.bits_inj'. intros n Hn.
  rewrite !Z.land_spec, !Z.shiftr_spec, testbit_one by lia.
  destruct (Z.eqb_spec n 0) as [-> | Hne]; [| rewrite !andb_false_r; reflexivity].
  change 256 with (2 ^ 8). rewrite Z.testbit_mod_pow2 by lia.
  destruct (Z.ltb_spec (0 + k) 8); [reflexivity | lia].
Qed.

Lemma opcode_low_byte (x : Z) :
  Z.land (Z.shiftr (x mod 256) 1) 0xF = Z.land (Z.shiftr x 1) 0xF.
Proof.
  apply Z.bits_inj'. intros n Hn.
  rewrite !Z.land_spec, !Z.shiftr_spec by lia.
  change 256 with (2 ^ 8). rewrite Z.testbit_mod_pow2 by lia.
  destruct (Z.ltb_spec (n + 1) 8) as [Hlow | Hhigh]; [reflexivity |].
  replace (Z.testbit 15 n) with false; [rewrite !andb_false_r; reflexivity |].
  symmetry. apply Z.bits_above_log2; [lia |]. change (Z.log2 15) with 3. lia.
Qed.

Lemma lxor_low_byte (x m : Z) : 0 ≤ m < 256 → Z.lxor x m mod 256 = Z.lxor (x mod 256) m.
Proof.
  intros Hm. apply Z.bits_inj'. intros n Hn.
  change 256 with (2 ^ 8). rewrite Z.lxor_spec, !Z.testbit_mod_pow2, Z.lxor_spec by lia.
  destruct (Z.ltb_spec n 8) as [Hlow | Hhigh]; [reflexivity |].
  cbn [andb]. symmetry. destruct (Z.eq_dec m 0) as [-> | Hne]; [apply Z.bits_0 |].
  apply Z.bits_above_log2; [lia |].
  assert (Z.log2 m < 8); [| lia]. apply Z.log2_lt_pow2; lia.
Qed.

(** [classify] reads eight bits of its first argument. *)
Lemma classify_mod (x d : Z) : classify x d = classify (x mod 256) d.
Proof.
  unfold classify. fold (bit (x mod 256) 7) (bit (x mod 256) 6) (bit (x mod 256) 5)
    (bit (x mod 256) 4) (bit (x mod 256) 3) (bit (x mod 256) 2) (bit (x mod 256) 1).
  fold (bit x 7) (bit x 6) (bit x 5) (bit x 4) (bit x 3) (bit x 2) (bit x 1).
  change (Z.land (x mod 256) 1) with (Z.land (Z.shiftr (x mod 256) 0) 1).
  change (Z.land x 1) with (Z.land (Z.shiftr x 0) 1).
  fold (bit (x mod 256) 0) (bit x 0).
  rewrite !bit_low_byte, opcode_low_byte by lia. reflexivity.
Qed.

(** [classify] compares its second argument with 0 and with 1, nothing
    more. *)
Lemma classify_discriminator (x d : Z) : classify x d = classify x (discriminator_case d).
Proof.
  unfold discriminator_case.
  destruct (Z.eqb_spec d 0) as [-> | H0]; [reflexivity |].
  destruct (Z.eqb_spec d 1) as [-> | H1]; [reflexivity |].
  unfold classify. apply Z.eqb_neq in H0, H1. rewrite H0, H1. reflexivity.
Qed.

Lemma low_byte_range (x : Z) : 0 ≤ x mod 256 < 256.
Proof. apply Z.mod_pos_bound. lia. Qed.

Lemma discriminator_case_In (d : Z) : In (discriminator_case d) [0; 1; 2].
Proof.
  unfold discriminator_case. destruct (d =? 0); [| destruct (d =? 1)]; simpl; auto.
Qed.

(** A boolean property checked on every low byte and every way the
    second argument can be seen holds of all pairs of integers. *)
Lemma on_all_integers (P : Z → Z → bool) :
  forallb (λ y, forallb (P y) [0; 1; 2]) (range 256) = true →
  ∀ x d, P (x mod 256) (discriminator_case d) = true.
Proof.
  intros Hall x d. rewrite forallb_forall in Hall.
  specialize (Hall _ (range_In 256 _ (low_byte_range x))).
  rewrite forallb_forall in Hall. apply Hall, discriminator_case_In.
Qed.

End LowByte.

Lemma discriminator_case_0 (d : Z) : (discriminator_case d =? 0) = (d =? 0).
Proof. unfold discriminator_case. destruct (d =? 0); [| destruct (d =? 1)]; reflexivity. Qed.

Lemma discriminator_case_1 (d : Z) : (discriminator_case d =? 1) = (d =? 1).
Proof.
  unfold discriminator_case. destruct (Z.eqb_spec d 0) as [-> | H0]; [reflexivity |].
  destruct (d =? 1); reflexivity.
Qed.

Lemma handler_of_mod (x d : Z) :
  handler_of x d = handler_of (x mod 256) (discriminator_case d).
Proof.
  unfold handler_of. rewrite classify_mod, classify_discriminator. reflexivity.
Qed.

(** X3: [classify] reads only the low eight bits of its first argument and
    only whether the second is 0, 1 or something else; for every pair of
    integers, in or out of range, it returns a category (the subscript of
    [data_proc_map] never raises), and the category is a key of
    [type_to_handler]. *)
Theorem classify_on_all_integers (x d : Z) :
  classify x d = classify (x mod 256) (discriminator_case d)
  ∧ ∃ c h, classify x d = Some c ∧ type_to_handler !! c = Some h.
Proof.
  rewrite classify_mod, classify_discriminator. split; [reflexivity |].
  assert (Hall : forallb (λ y, forallb (category_has_handler y) [0; 1; 2]) (range 256) = true)
    by (vm_compute; reflexivity).
  pose proof (on_all_integers _ Hall x d) as Hc. unfold category_has_handler in Hc.
  destruct (classify (x mod 256) (discriminator_case d)) as [c |]; [| discriminate].
  destruct (type_to_handler !! c) as [h |] eqn:Hh; [| discriminate].
  exists c, h. split; [reflexivity | exact Hh].
Qed.

(** X4: when b27 = 1 the second argument does not matter at all. *)
Theorem discriminator_ignored_upper_half (x d d' : Z) :
  bit x 7 = 1 → classify x d = classify x d'.
Proof.
  intros H7. rewrite <- (bit_low_byte x 7) in H7 by lia.
  rewrite (classify_mod x d), (classify_mod x d').
  rewrite (classify_discriminator _ d), (classify_discriminator _ d').
  assert (Hall : forallb (λ y, forallb (upper_half_check y) [0; 1; 2]) (range 256) = true)
    by (vm_compute; reflexivity).
  pose proof (on_all_integers _ Hall x d) as Hc. unfold upper_half_check in Hc.
  rewrite H7 in Hc. cbn [Z.eqb Pos.eqb] in Hc.
  rewrite forallb_forall in Hc.
  apply same_result_eq, Hc, discriminator_case_In.
Qed.

Lemma discriminator_ignored_upper_half_witness :
  classify 0xA5 0 = classify 0xA5 7.
Proof. apply (discriminator_ignored_upper_half 0xA5 0 7). reflexivity. Defined.

(** X5: below b27 = 1, a second argument other than 0 gives
    Undefined/Reserved, unless it is 1 and the result is one of the
    multiply and swap categories; and those categories are returned only
    for the second argument 1 with bits 27-25 all zero. *)
Theorem lower_half_discriminator (x d : Z) :
  (bit x 7 = 0 → d ≠ 0 →
     classify x d = Some "Undefined/Reserved"
     ∨ (d = 1 ∧ ∃ c, classify x d = Some c ∧ in_names c multiply_swap_names = true))
  ∧ (∀ c, classify x d = Some c → in_names c multiply_swap_names = true →
       d = 1 ∧ bit x 7 = 0 ∧ bit x 6 = 0 ∧ bit x 5 = 0).
Proof.
  assert (Hall : forallb (λ y, forallb (lower_half_check y) [0; 1; 2]) (range 256) = true)
    by (vm_compute; reflexivity).
  pose proof (on_all_integers _ Hall x d) as Hc. unfold lower_half_check in Hc.
  rewrite <- classify_discriminator, <- classify_mod in Hc.
  rewrite !bit_low_byte, discriminator_case_0, discriminator_case_1 in Hc by lia.
  destruct (classify x d) as [c |]; [| discriminate].
  apply andb_prop in Hc as [Hfam Hlow]. split.
  - intros H7 Hd. rewrite H7 in Hlow. apply Z.eqb_neq in Hd. rewrite Hd in Hlow.
    cbn [Z.eqb andb negb] in Hlow.
    apply orb_prop in Hlow as [Hund | Hmul].
    + left. apply String.eqb_eq in Hund. congruence.
    + right. apply andb_prop in Hmul as [H1 Hmul]. apply Z.eqb_eq in H1. eauto.
  - intros c' [= <-] Hin. rewrite Hin in Hfam.
    apply andb_prop in Hfam as [Hfam H5]. apply andb_prop in Hfam as [Hfam H6].
    apply andb_prop in Hfam as [H1 H7].
    apply Z.eqb_eq in H1, H5, H6, H7. auto.
Qed.

Lemma lower_half_discriminator_witness :
  (classify 0x48 1 = Some "Undefined/Reserved"
   ∨ (1 = 1 ∧ ∃ c, classify 0x48 1 = Some c ∧ in_names c multiply_swap_names = true))
  ∧ (1 = 1 ∧ bit 0x0B 7 = 0 ∧ bit 0x0B 6 = 0 ∧ bit 0x0B 5 = 0).
Proof.
  split.
  - apply (lower_half_discriminator 0x48 1); [reflexivity | lia].
  - apply (proj2 (lower_half_discriminator 0x0B 1) "UMLALS"); reflexivity.
Defined.

(** X6: a compare or test category (TST, TEQ, CMP, CMN) is returned only
    with b20 = 1 and discriminator 0; on the same rows with b20 = 0 the
    status-register rules come first and the result is MRS, MSR_REG or
    MSR_IMM. *)
Theorem compare_rows_need_s_bit (x d : Z) :
  (∀ c, classify x d = Some c → in_names c compare_names = true →
     bit x 0 = 1 ∧ d = 0)
  ∧ (d = 0 → bit x 7 = 0 → bit x 6 = 0 → bit x 4 = 1 → bit x 3 = 0 → bit x 0 = 0 →
     ∃ c, classify x d = Some c ∧ in_names c psr_names = true).
Proof.
  assert (Hall : forallb (λ y, forallb (compare_rows_check y) [0; 1; 2]) (range 256) = true)
    by (vm_compute; reflexivity).
  pose proof (on_all_integers _ Hall x d) as Hc. unfold compare_rows_check in Hc.
  rewrite <- classify_discriminator, <- classify_mod in Hc.
  rewrite !bit_low_byte, discriminator_case_0 in Hc by lia.
  destruct (classify x d) as [c |]; [| discriminate].
  apply andb_prop in Hc as [Hcmp Hpsr]. split.
  - intros c' [= <-] Hin. rewrite Hin in Hcmp.
    apply andb_prop in Hcmp as [H0 Hd]. apply Z.eqb_eq in H0, Hd. auto.
  - intros -> H7 H6 H4 H3 H0. rewrite H7, H6, H4, H3, H0 in Hpsr.
    cbn [Z.eqb Pos.eqb andb] in Hpsr. eauto.
Qed.

Lemma compare_rows_need_s_bit_witness :
  (bit 0x15 0 = 1 ∧ 0 = 0)
  ∧ ∃ c, classify 0x34 0 = Some c ∧ in_names c psr_names = true.
Proof.
  split.
  - apply (proj1 (compare_rows_need_s_bit 0x15 0) "CMP_REG"); reflexivity.
  - apply (proj2 (compare_rows_need_s_bit 0x34 0)); reflexivity.
Defined.

(** X7: on the data-processing and multiply rows (b27 = 0, b26 = 0, bits
    24-23 other than 10) the S bit, b20, does not change the handler the
    builder stores: the flag-setting variant shares it. *)
Theorem s_bit_keeps_handler (x d : Z) :
  bit x 7 = 0 → bit x 6 = 0 → bit x 4 = 0 ∨ bit x 3 = 1 →
  handler_of x d = handler_of (Z.lxor x 1) d.
Proof.
  intros H7 H6 H43.
  assert (Hall : forallb (λ y, forallb (s_bit_check y) [0; 1; 2]) (range 256) = true)
    by (vm_compute; reflexivity).
  pose proof (on_all_integers _ Hall x d) as Hc. unfold s_bit_check in Hc.
  rewrite !bit_low_byte, H7, H6 in Hc by lia.
  assert (Hrows : (bit x 4 =? 0) || (bit x 3 =? 1) = true).
  { destruct H43 as [-> | ->]; [reflexivity | apply orb_true_r]. }
  rewrite Hrows in Hc. cbn [Z.eqb andb] in Hc.
  rewrite (handler_of_mod x d), (handler_of_mod (Z.lxor x 1) d), lxor_low_byte by lia.
  apply same_result_eq. assumption.
Qed.

Lemma s_bit_keeps_handler_witness :
  handler_of 0x02 1 = handler_of (Z.lxor 0x02 1) 1.
Proof.
  apply (s_bit_keeps_handler 0x02 1); [reflexivity | reflexivity | left; reflexivity].
Defined.

(** * Further properties of the emitter *)


Lemma generated_line_shapes_witness :
  ∃ out, generate_cpp_table ["a"; "a"; "b"; "b"; "c"] = Some out
         ∧ Forall line_shape out.
Proof.
  eexists. split; [vm_compute; reflexivity |].
  apply (generated_line_shapes ["a"; "a"; "b"; "b"; "c"]). vm_compute. reflexivity.
Defined.




Lemma string_length_append (s t : string) :
  String.length (s +:+ t) = (String.length s + String.length t)%nat.
Proof.
  induction s as [| c s IH]; [reflexivity |].
  change (String c s +:+ t) with (String c (s +:+ t)).
  cbn [String.length]. rewrite IH. reflexivity.
Qed.

Lemma times_length (c : ascii) (n : Z) : String.length (times c n) = Z.to_nat n.
Proof.
  unfold times. induction (Z.to_nat n) as [| k IH]; [reflexivity |].
  cbn. f_equal. exact IH.
Qed.

(** X10: in the text of a line the comment starts in column [comment_col]
    when the code is shorter than that, and after a single space when it
    is not: the code and the padding together are
    [max(comment_col, len(code) + 1)] characters. *)
Theorem comment_column (comment_col : Z) (l : line) :
  ∃ pad,
    line_text comment_col l
    = (indent +:+ call_text (code l) +:+ ",") +:+ pad +:+ "// " +:+ comment l
    ∧ pad = times " " (Z.of_nat (String.length pad))
    ∧ Z.of_nat (String.length ((indent +:+ call_text (code l) +:+ ",") +:+ pad))
      = Z.max comment_col
              (Z.of_nat (String.length (indent +:+ call_text (code l) +:+ ",")) + 1).
Proof.
  set (text := indent +:+ call_text (code l) +:+ ",").
  exists (times " " (Z.max (comment_col - Z.of_nat (String.length text)) 1)).
  split; [reflexivity |]. split.
  - rewrite times_length, Z2Nat.id by lia. reflexivity.
  - rewrite string_length_append, times_length. lia.
Qed.

(** * Further properties of the cross-check *)

Section CrossCheckFacts.

Variables mgba_table your_table : gmap Z string.

Lemma main_eq :
  main mgba_table your_table
  = (omap (mismatch_at mgba_table your_table)
          (sorted_keys (dom mgba_table ∪ dom your_table))
     ++ [Total (Z.of_nat
                  (length (omap (mismatch_at mgba_table your_table)
                             (sorted_keys (dom mgba_table ∪ dom your_table)))))])%list.
Proof. unfold main. rewrite check_keys. cbn [app]. rewrite Z.add_0_l. reflexivity. Qed.

Lemma mismatch_in_main (key : Z) (p : printed) :
  key ∈ dom mgba_table ∪ dom your_table →
  mismatch_at mgba_table your_table key = Some p →
  p ∈ main mgba_table your_table.
Proof.
  intros Hkey Hp. rewrite main_eq. apply elem_of_app. left.
  apply list_elem_of_omap. exists key. split; [apply sorted_keys_elem |]; assumption.
Qed.

Lemma mismatch_of_main (key : Z) (f e a : string) :
  Mismatch key f e a ∈ main mgba_table your_table →
  mismatch_at mgba_table your_table key = Some (Mismatch key f e a).
Proof.
  rewrite main_eq. intros Hin. apply elem_of_app in Hin as [Hin | Hin].
  - apply list_elem_of_omap in Hin as (key' & _ & Hp).
    assert (key' = key) as ->; [| assumption].
    apply mismatch_at_key in Hp as (f' & e' & a' & Hp).
    injection Hp as -> _ _ _. reflexivity.
  - apply list_elem_of_singleton in Hin. discriminate Hin.
Qed.

End CrossCheckFacts.

Lemma omap_all_None {A B : Type} (f : A → option B) (l : list A) :
  omap f l = [] ↔ ∀ x, x ∈ l → f x = None.
Proof.
  induction l as [| x l IH]; [split; [intros _ y Hy; inversion Hy | reflexivity] |].
  rewrite omap_cons_eq. split.
  - intros Hnil y Hy. destruct (f x) as [b |] eqn:Hx; [discriminate Hnil |].
    apply elem_of_cons in Hy as [-> | Hy]; [assumption | apply IH; assumption].
  - intros Hall. rewrite (Hall x) by left. apply IH. intros y Hy. apply Hall. right. assumption.
Qed.

Lemma omap_single {A B : Type} (f : A → option B) (l : list A) (k : A) (p : B) :
  NoDup l → k ∈ l → f k = Some p → (∀ x, x ∈ l → x ≠ k → f x = None) →
  omap f l = [p].
Proof.
  induction 1 as [| x l Hx Hnodup IH]; intros Hk Hfk Hrest; [inversion Hk |].
  rewrite omap_cons_eq. apply elem_of_cons in Hk as [<- | Hk].
  - rewrite Hfk. f_equal. apply omap_all_None. intros y Hy.
    apply Hrest; [right; assumption | intros ->; contradiction].
  - rewrite (Hrest x); [| left | intros ->; contradiction].
    apply IH; [assumption | assumption |].
    intros y Hy Hne. apply Hrest; [right; assumption | assumption].
Qed.

Lemma get_insert_eq (table : gmap Z string) (key : Z) (v default : string) :
  get (<[key := v]> table) key default = v.
Proof. unfold get. rewrite lookup_insert_eq. reflexivity. Qed.

Lemma get_insert_ne (table : gmap Z string) (key key' : Z) (v default : string) :
  key ≠ key' → get (<[key := v]> table) key' default = get table key' default.
Proof. intros Hne. unfold get. rewrite lookup_insert_ne by assumption. reflexivity. Qed.

(** X11: [main] prints nothing but a total of 0 exactly when, for every
    key of either table, the image of the foreign name is the local
    name, the defaults standing in for missing keys. *)
Theorem cross_check_agreement (mgba_table your_table : gmap Z string) :
  main mgba_table your_table = [Total 0]
  ↔ ∀ key, key ∈ dom mgba_table ∪ dom your_table →
      get mgba_to_yours (get mgba_table key "ILL") "(unmapped)"
      = get your_table key "exec_arm_undefined".
Proof.
  rewrite main_eq. split.
  - intros Hmain key Hkey.
    assert (Hnil : omap (mismatch_at mgba_table your_table)
                        (sorted_keys (dom mgba_table ∪ dom your_table)) = []).
    { destruct (omap _ _) as [| p ps]; [reflexivity |].
      apply (f_equal length) in Hmain. rewrite length_app in Hmain.
      cbn [length] in Hmain. lia. }
    rewrite omap_all_None in Hnil.
    specialize (Hnil key (proj2 (sorted_keys_elem _ key) Hkey)).
    destruct (mismatch_at_spec mgba_table your_table key) as [[_ Hsome] | [Heq _]];
      [| assumption].
    rewrite Hnil in Hsome. discriminate Hsome.
  - intros Hall.
    assert (Hnil : omap (mismatch_at mgba_table your_table)
                        (sorted_keys (dom mgba_table ∪ dom your_table)) = []).
    { apply omap_all_None. intros key Hkey. apply sorted_keys_elem in Hkey.
      destruct (mismatch_at_spec mgba_table your_table key) as [[Hne _] | [_ Hnone]];
        [| assumption].
      exfalso. apply Hne, Hall. assumption. }
    rewrite Hnil. reflexivity.
Qed.

(** X12: when the two tables agree, giving one key a local name that is
    not the image of its foreign name makes [main] print exactly that
    mismatch and a total of 1. *)
Theorem one_altered_entry (mgba_table your_table : gmap Z string)
        (key : Z) (handler : string) :
  main mgba_table your_table = [Total 0] →
  get mgba_to_yours (get mgba_table key "ILL") "(unmapped)" ≠ handler →
  main mgba_table (<[key := handler]> your_table)
  = [Mismatch key (get mgba_table key "ILL")
       (get mgba_to_yours (get mgba_table key "ILL") "(unmapped)") handler;
     Total 1].
Proof.
  intros Hagree Hne.
  assert (Hold : ∀ k, k ∈ dom mgba_table ∪ dom your_table →
                      mismatch_at mgba_table your_table k = None).
  { rewrite main_eq in Hagree. intros k Hk.
    assert (Hnil : omap (mismatch_at mgba_table your_table)
                        (sorted_keys (dom mgba_table ∪ dom your_table)) = []).
    { destruct (omap _ _) as [| p ps]; [reflexivity |].
      apply (f_equal length) in Hagree. rewrite length_app in Hagree.
      cbn [length] in Hagree. lia. }
    rewrite omap_all_None in Hnil. apply Hnil, sorted_keys_elem. assumption. }
  rewrite main_eq.
  rewrite (omap_single _ _ key
             (Mismatch key (get mgba_table key "ILL")
                (get mgba_to_yours (get mgba_table key "ILL") "(unmapped)") handler)).
  - reflexivity.
  - apply sorted_keys_NoDup.
  - apply sorted_keys_elem. rewrite dom_insert_L.
    apply elem_of_union. right. apply elem_of_union. left. apply elem_of_singleton. reflexivity.
  - destruct (mismatch_at_spec mgba_table (<[key := handler]> your_table) key)
      as [[_ Hsome] | [Heq _]]; rewrite get_insert_eq in *; [assumption | contradiction].
  - intros k Hk Hkne. apply sorted_keys_elem in Hk. rewrite dom_insert_L in Hk.
    assert (Hk' : k ∈ dom mgba_table ∪ dom your_table).
    { apply elem_of_union in Hk as [Hk | Hk]; [apply elem_of_union; left; assumption |].
      apply elem_of_union in Hk as [Hk | Hk]; [| apply elem_of_union; right; assumption].
      apply elem_of_singleton in Hk. contradiction. }
    rewrite <- (Hold k Hk'). unfold mismatch_at.
    rewrite get_insert_ne by congruence. reflexivity.
Qed.

Lemma one_altered_entry_witness :
  main (list_to_map [(0, "B"); (1, "BL")])
       (<[1 := "exec_arm_b"]> (list_to_map [(0, "exec_arm_b"); (1, "exec_arm_bl")]))
  = [Mismatch 1 (get (list_to_map [(0, "B"); (1, "BL")] : gmap Z string) 1 "ILL")
       (get mgba_to_yours
            (get (list_to_map [(0, "B"); (1, "BL")] : gmap Z string) 1 "ILL") "(unmapped)")
       "exec_arm_b";
     Total 1].
Proof.
  apply (one_altered_entry (list_to_map [(0, "B"); (1, "BL")])
                           (list_to_map [(0, "exec_arm_b"); (1, "exec_arm_bl")])
                           1 "exec_arm_b").
  - vm_compute. reflexivity.
  - vm_compute. discriminate.
Defined.

Lemma ill_is_undefined : get mgba_to_yours "ILL" "(unmapped)" = "exec_arm_undefined".
Proof. vm_compute. reflexivity. Qed.

Lemma get_missing {K : Type} `{Countable K} (table : gmap K string) (key : K) (default : string) :
  table !! key = None → get table key default = default.
Proof. intros Hnone. unfold get. rewrite Hnone. reflexivity. Qed.

Lemma get_present {K : Type} `{Countable K} (table : gmap K string) (key : K) (v default : string) :
  table !! key = Some v → get table key default = v.
Proof. intros Hsome. unfold get. rewrite Hsome. reflexivity. Qed.

(** X13: a key that only the local table has is checked against the
    foreign name ILL, whose image is [exec_arm_undefined]: it is reported
    exactly when its local name is another one.  A key that only the
    foreign table has is reported exactly when the image of its foreign
    name is not [exec_arm_undefined]. *)
Theorem missing_key_defaults (mgba_table your_table : gmap Z string) (key : Z) :
  (∀ h, mgba_table !! key = None → your_table !! key = Some h →
     Mismatch key "ILL" "exec_arm_undefined" h ∈ main mgba_table your_table
     ↔ h ≠ "exec_arm_undefined")
  ∧ (∀ f, mgba_table !! key = Some f → your_table !! key = None →
       Mismatch key f (get mgba_to_yours f "(unmapped)") "exec_arm_undefined"
         ∈ main mgba_table your_table
       ↔ get mgba_to_yours f "(unmapped)" ≠ "exec_arm_undefined").
Proof.
  split.
  - intros h Hm Hy.
    assert (Hkey : key ∈ dom mgba_table ∪ dom your_table).
    { apply elem_of_union. right. apply elem_of_dom. eauto. }
    pose proof (mismatch_at_spec mgba_table your_table key) as Hspec.
    rewrite (get_missing mgba_table key "ILL" Hm), ill_is_undefined in Hspec.
    rewrite (get_present your_table key h _ Hy) in Hspec.
    destruct Hspec as [[Hne Hsome] | [Heq Hnone]].
    + split; [intros _; congruence |]. intros _.
      apply (mismatch_in_main _ _ key); assumption.
    + split; [| congruence]. intros Hin.
      apply mismatch_of_main in Hin. rewrite Hnone in Hin. discriminate Hin.
  - intros f Hm Hy.
    assert (Hkey : key ∈ dom mgba_table ∪ dom your_table).
    { apply elem_of_union. left. apply elem_of_dom. eauto. }
    pose proof (mismatch_at_spec mgba_table your_table key) as Hspec.
    rewrite (get_present mgba_table key f _ Hm) in Hspec.
    rewrite (get_missing your_table key _ Hy) in Hspec.
    destruct Hspec as [[Hne Hsome] | [Heq Hnone]].
    + split; [intros _; assumption |]. intros _.
      apply (mismatch_in_main _ _ key); assumption.
    + split; [| intros Hne; contradiction]. intros Hin.
      apply mismatch_of_main in Hin. rewrite Hnone in Hin. discriminate Hin.
Qed.

(** The image of a foreign name is the default or a value of the
    dictionary. *)
Lemma mapped_handler_image (mgba_handler : string) :
  get mgba_to_yours mgba_handler "(unmapped)" ∈ "(unmapped)" :: mgba_to_yours_items.*2.
Proof.
  unfold get. destruct (mgba_to_yours !! mgba_handler) as [v |] eqn:Hv; [| left].
  right. apply elem_of_list_to_map_2 in Hv.
  apply list_elem_of_fmap. exists (mgba_handler, v). split; [reflexivity | assumption].
Qed.

Lemma handlers_without_foreign_name_spec :
  Forall (λ h, (h ∉ "(unmapped)" :: mgba_to_yours_items.*2) ∧ h ∈ handler_array)
         handlers_without_foreign_name.
Proof. apply (bool_decide_unpack _). vm_compute. exact I. Qed.

(** X14: sixteen handlers of the built table (the register-offset
    transfers, LDC_REG, STC_REG, MSR_REG and MSR_IMM) are the image of no
    foreign name; a key whose local name is one of them is reported by
    [main] whatever the foreign table holds. *)
Theorem handler_without_foreign_name_reported
        (mgba_table your_table : gmap Z string) (key : Z) (h : string) :
  your_table !! key = Some h →
  h ∈ handlers_without_foreign_name →
  h ∈ handler_array
  ∧ (∀ mgba_handler, get mgba_to_yours mgba_handler "(unmapped)" ≠ h)
  ∧ Mismatch key (get mgba_table key "ILL")
      (get mgba_to_yours (get mgba_table key "ILL") "(unmapped)") h
    ∈ main mgba_table your_table.
Proof.
  intros Hy Hh.
  pose proof handlers_without_foreign_name_spec as Hall.
  rewrite Forall_forall in Hall. destruct (Hall h Hh) as [Hnot Hin].
  assert (Hne : ∀ mgba_handler, get mgba_to_yours mgba_handler "(unmapped)" ≠ h).
  { intros f Heq. apply Hnot. rewrite <- Heq. apply mapped_handler_image. }
  split; [assumption |]. split; [assumption |].
  assert (Hkey : key ∈ dom mgba_table ∪ dom your_table).
  { apply elem_of_union. right. apply elem_of_dom. eauto. }
  pose proof (mismatch_at_spec mgba_table your_table key) as Hspec.
  rewrite (get_present your_table key h _ Hy) in Hspec.
  destruct Hspec as [[_ Hsome] | [Heq _]].
  - apply (mismatch_in_main _ _ key); assumption.
  - exfalso. exact (Hne _ Heq).
Qed.

Lemma handler_without_foreign_name_reported_witness :
  "exec_arm_msr_imm" ∈ handler_array
  ∧ (∀ mgba_handler, get mgba_to_yours mgba_handler "(unmapped)" ≠ "exec_arm_msr_imm")
  ∧ Mismatch 0x64 (get (∅ : gmap Z string) 0x64 "ILL")
      (get mgba_to_yours (get (∅ : gmap Z string) 0x64 "ILL") "(unmapped)")
      "exec_arm_msr_imm"
    ∈ main ∅ {[ 0x64 := "exec_arm_msr_imm" ]}.
Proof.
  apply (handler_without_foreign_name_reported ∅ {[ 0x64 := "exec_arm_msr_imm" ]} 0x64).
  - vm_compute. reflexivity.
  - apply (bool_decide_unpack _). vm_compute. exact I.
Defined.

Lemma msr_image : get mgba_to_yours "MSR" "(unmapped)" = "exec_arm_msr".
Proof. vm_compute. reflexivity. Qed.

Lemma msr_is_no_handler :
  "exec_arm_msr" ∉ "exec_arm_undefined" :: type_to_handler_items.*2.
Proof. apply (bool_decide_unpack _). vm_compute. exact I. Qed.

(** X15: the foreign name MSR is mapped to [exec_arm_msr], which is the
    handler of no category; a key with that foreign name is reported
    whenever its local name is a handler of [type_to_handler], or
    missing. *)
Theorem foreign_msr_reported (mgba_table your_table : gmap Z string) (key : Z) :
  mgba_table !! key = Some "MSR" →
  get your_table key "exec_arm_undefined"
    ∈ "exec_arm_undefined" :: type_to_handler_items.*2 →
  Mismatch key "MSR" "exec_arm_msr" (get your_table key "exec_arm_undefined")
    ∈ main mgba_table your_table.
Proof.
  intros Hm Hy.
  assert (Hkey : key ∈ dom mgba_table ∪ dom your_table).
  { apply elem_of_union. left. apply elem_of_dom. eauto. }
  pose proof (mismatch_at_spec mgba_table your_table key) as Hspec.
  rewrite (get_present mgba_table key "MSR" _ Hm), msr_image in Hspec.
  destruct Hspec as [[_ Hsome] | [Heq _]].
  - apply (mismatch_in_main _ _ key); assumption.
  - exfalso. apply msr_is_no_handler. rewrite Heq. assumption.
Qed.

Lemma foreign_msr_reported_witness :
  Mismatch 0x24 "MSR" "exec_arm_msr"
    (get ({[ 0x24 := "exec_arm_msr_reg" ]} : gmap Z string) 0x24 "exec_arm_undefined")
    ∈ main {[ 0x24 := "MSR" ]} {[ 0x24 := "exec_arm_msr_reg" ]}.
Proof.
  apply (foreign_msr_reported {[ 0x24 := "MSR" ]} {[ 0x24 := "exec_arm_msr_reg" ]} 0x24).
  - vm_compute. reflexivity.
  - apply (bool_decide_unpack _). vm_compute. exact I.
Defined.

(** * Properties of the parsers *)

Example match_your_single :
  match_your (emit_repeat_macro_text (One "exec_arm_mrs") 1 0x20) = Some "exec_arm_mrs".
Proof. reflexivity. Qed.

Example match_your_macro :
  match_your (emit_repeat_macro_text (One "exec_arm_b") 32 0x140) = None.
Proof. reflexivity. Qed.

Example match_mgba_entry :
  match_mgba "    [0x01F] = AND_LSL, // comment" = Some ("0x01F", "AND_LSL")
  ∧ int_16 "0x01F" = Some 31
  ∧ match_mgba "    REPEAT_4(x)," = None
  ∧ match_mgba "[0x1G] = AND_LSL," = None.
Proof. repeat split; reflexivity. Qed.

Lemma append_String (c : ascii) (s t : string) : String c s +:+ t = String c (s +:+ t).
Proof. reflexivity. Qed.

Lemma append_empty (t : string) : "" +:+ t = t.
Proof. reflexivity. Qed.

Lemma span_stop (class : ascii → bool) (h : string) (c : ascii) (rest : string) :
  all_chars class h = true → class c = false →
  span class (h +:+ String c rest) = (h, String c rest).
Proof.
  intros Hall Hc. induction h as [| x h IH].
  - rewrite append_empty. cbn [span]. rewrite Hc. reflexivity.
  - cbn [all_chars] in Hall. apply andb_prop in Hall as [Hx Hall].
    rewrite append_String. cbn [span]. rewrite Hx, (IH Hall). reflexivity.
Qed.

Lemma span_all (class : ascii → bool) (h : string) :
  all_chars class h = true → span class h = (h, "").
Proof.
  induction h as [| x h IH]; intros Hall; [reflexivity |].
  cbn [all_chars] in Hall. apply andb_prop in Hall as [Hx Hall].
  cbn [span]. rewrite Hx, (IH Hall). reflexivity.
Qed.

Lemma span_spec (class : ascii → bool) (s : string) :
  s = (span class s).1 +:+ (span class s).2
  ∧ all_chars class (span class s).1 = true.
Proof.
  induction s as [| c s [IHeq IHall]]; [split; reflexivity |].
  cbn [span]. destruct (class c) eqn:Hc; [| split; reflexivity].
  destruct (span class s) as [taken remainder]. cbn [fst snd] in *.
  rewrite append_String, <- IHeq. cbn [all_chars]. rewrite Hc, IHall. split; reflexivity.
Qed.

Lemma plus_spec (class : ascii → bool) (s taken remainder : string) :
  plus class s = Some (taken, remainder) →
  s = taken +:+ remainder ∧ taken ≠ "" ∧ all_chars class taken = true.
Proof.
  unfold plus. pose proof (span_spec class s) as [Heq Hall].
  destruct (span class s) as [t r]. cbn [fst snd] in *.
  destruct (String.eqb_spec t "") as [-> | Hne]; [discriminate |].
  intros [= <- <-]. auto.
Qed.

Lemma append_assoc_eq (s t u : string) : (s +:+ t) +:+ u = s +:+ (t +:+ u).
Proof.
  induction s as [| c s IH]; [reflexivity |].
  rewrite !append_String, IH. reflexivity.
Qed.

Lemma your_prefix (rest : string) :
  literal "ARM_FN(" (star is_space ("        ARM_FN(" +:+ rest)) = Some rest.
Proof. reflexivity. Qed.

(** What [match_your] makes of a single-entry line and of the others. *)
Lemma match_your_line (comment_col : Z) (l : line) :
  line_shape l →
  match code l with ARM_FN h => plain_name h = true | _ => True end →
  match_your (line_text comment_col l) = read_back (code l).
Proof.
  unfold line_shape, line_text, indent. intros Hshape Hname.
  destruct (code l) as [h | h | h | h | h | h | h | h | a b | a b | hs];
    try contradiction; try reflexivity.
  unfold plain_name in Hname. apply andb_prop in Hname as [Hne Hall].
  apply negb_true_iff, String.eqb_neq in Hne.
  unfold call_text, fn_text. rewrite !append_assoc_eq.
  match goal with
  | |- match_your (_ +:+ _ +:+ h +:+ _ +:+ ?tail) = _ =>
      change (match_your ("        ARM_FN(" +:+ (h +:+ String ")" tail)) = Some h)
  end.
  unfold match_your. rewrite your_prefix. cbn [mbind option_bind]. unfold plus.
  rewrite (span_stop is_not_paren h ")"); [| assumption | reflexivity].
  destruct (String.eqb_spec h "") as [-> | _]; [contradiction |].
  reflexivity.
Qed.

Lemma parse_your_lines_lookup (lines : list string) :
  ∀ start table idx,
    parse_your_lines start lines table !! idx
    = if (start <=? idx) && (idx <? start + Z.of_nat (length lines))
      then match lines !! Z.to_nat (idx - start) ≫= match_your with
           | Some handler => Some handler
           | None => table !! idx
           end
      else table !! idx.
Proof.
  induction lines as [| line rest IH]; intros start table idx.
  - cbn [parse_your_lines length]. destruct (_ && _) eqn:Hin; [| reflexivity].
    apply andb_prop in Hin as [Hlo Hhi]. apply Z.leb_le in Hlo. apply Z.ltb_lt in Hhi.
    cbn in Hhi. lia.
  - cbn [parse_your_lines]. rewrite IH. cbn [length].
    destruct (Z.leb_spec (start + 1) idx) as [Hafter | Hnot].
    + assert (Hne : start ≠ idx) by lia.
      replace (start <=? idx) with true by (symmetry; apply Z.leb_le; lia).
      replace (idx <? start + Z.of_nat (S (length rest)))
        with (idx <? start + 1 + Z.of_nat (length rest))
        by (destruct (Z.ltb_spec idx (start + 1 + Z.of_nat (length rest)));
            destruct (Z.ltb_spec idx (start + Z.of_nat (S (length rest)))); lia || reflexivity).
      replace (Z.to_nat (idx - start)) with (S (Z.to_nat (idx - (start + 1)))) by lia.
      cbn [andb].
      change ((line :: rest) !! S (Z.to_nat (idx - (start + 1))))
        with (rest !! Z.to_nat (idx - (start + 1))).
      assert (Htable : (match match_your line with
                        | Some handler => <[start := handler]> table
                        | None => table
                        end) !! idx = table !! idx).
      { destruct (match_your line); [apply lookup_insert_ne; assumption | reflexivity]. }
      rewrite Htable. reflexivity.
    + cbn [andb]. destruct (Z.leb_spec start idx) as [Hat | Hbefore].
      * assert (idx = start) as -> by lia.
        replace (start <? start + Z.of_nat (S (length rest))) with true
          by (symmetry; apply Z.ltb_lt; lia).
        rewrite Z.sub_diag. cbn [andb].
        change ((line :: rest) !! Z.to_nat 0 ≫= match_your) with (match_your line).
        destruct (match_your line); [apply lookup_insert_eq | reflexivity].
      * cbn [andb].
        destruct (match_your line); [apply lookup_insert_ne; lia | reflexivity].
Qed.

(** X16: [parse_your_table] keys its entries by the number of the line:
    the table has an entry at [idx] exactly when line [idx] of the file
    matches the pattern, and it is the name between the parentheses;
    lines that do not match leave no entry, and no key is negative or
    beyond the last line. *)
Theorem parse_your_table_by_line_number (lines : list string) (idx : Z) :
  parse_your_table lines !! idx
  = if 0 <=? idx then lines !! Z.to_nat idx ≫= match_your else None.
Proof.
  unfold parse_your_table. rewrite parse_your_lines_lookup, lookup_empty, Z.sub_0_r.
  destruct (Z.leb_spec 0 idx) as [Hpos | Hneg]; [| reflexivity]. cbn [andb].
  destruct (Z.ltb_spec idx (0 + Z.of_nat (length lines))) as [Hin | Hout].
  - destruct (lines !! Z.to_nat idx ≫= match_your); reflexivity.
  - rewrite (proj2 (lookup_ge_None lines (Z.to_nat idx))) by lia. reflexivity.
Qed.

(** X17: the validator's parser reads a single-entry line of the emitter
    back as its handler, whatever the index and the comment, provided the
    name is not empty and has no closing parenthesis; the other lines the
    emitter writes (REPEAT_2 ... REPEAT_128, REPEAT_ALT) do not match and
    are skipped. *)
Theorem emitted_line_read_back (handler : handler_arg) (count start : Z) :
  line_shape (emit_repeat_macro handler count start) →
  match handler with One h => plain_name h = true | Two _ _ => True end →
  match_your (emit_repeat_macro_text handler count start)
  = match handler with
    | One h => if count =? 1 then Some h else None
    | Two _ _ => None
    end.
Proof.
  intros Hshape Hname. unfold emit_repeat_macro_text.
  rewrite match_your_line; [| assumption |].
  - destruct handler as [h | a b]; cbn [emit_repeat_macro code] in *.
    + unfold line_shape in Hshape. cbn [emit_repeat_macro code] in Hshape.
      repeat match goal with
             | |- context [if count =? ?k then _ else _] =>
                 destruct (Z.eqb_spec count k) as [-> | ?]; [reflexivity |]
             end.
      repeat match goal with
             | H : context [if count =? ?k then _ else _] |- _ =>
                 destruct (Z.eqb_spec count k) as [-> | ?]; [lia |]
             end.
      contradiction.
    + destruct (count =? 4); reflexivity.
  - destruct handler as [h | a b]; cbn [emit_repeat_macro code].
    + repeat match goal with
             | |- context [if count =? ?k then _ else _] =>
                 destruct (Z.eqb_spec count k) as [-> | ?]; [assumption || exact I |]
             end.
      exact I.
    + destruct (count =? 4); exact I.
Qed.

Lemma emitted_line_read_back_witness :
  match_your (emit_repeat_macro_text (One "exec_arm_swp") 1 0x21)
  = if 1 =? 1 then Some "exec_arm_swp" else None.
Proof.
  apply (emitted_line_read_back (One "exec_arm_swp") 1 0x21); [exact I | reflexivity].
Defined.

Lemma slice_elem (arr : list string) (l : line) (h : string) :
  h ∈ slice arr l → h ∈ arr.
Proof.
  unfold slice. intros Hin. apply elem_of_take in Hin as (i & Hi & _).
  apply list_elem_of_lookup_2 in Hi. apply (subseteq_drop _ _ _ Hi).
Qed.

(** * The foreign table never fails to parse *)

Lemma hex_digit_value_nonneg (c : ascii) :
  is_hex_digit c = true → 0 ≤ hex_digit_value c < 16.
Proof.
  unfold is_hex_digit, hex_digit_value. generalize (N_of_ascii c) as n. intros n Hn.
  repeat rewrite ?orb_true_iff, ?andb_true_iff, ?N.leb_le in Hn.
  destruct (Z.leb_spec (Z.of_N n) 57); [lia |].
  destruct (Z.leb_spec (Z.of_N n) 70); lia.
Qed.

Lemma hex_value_nonneg (digits : string) :
  ∀ acc, 0 ≤ acc → all_chars is_hex_digit digits = true → 0 ≤ hex_value digits acc.
Proof.
  induction digits as [| c digits IH]; intros acc Hacc Hall; [assumption |].
  cbn [all_chars] in Hall. apply andb_prop in Hall as [Hc Hall].
  cbn [hex_value]. apply IH; [| assumption].
  pose proof (hex_digit_value_nonneg c Hc). lia.
Qed.

(** What the pattern lets through: a first group that [int(_, 16)]
    accepts, with a value that is not negative, and a name of word
    characters that is not empty. *)
Lemma match_mgba_groups (line group1 handler : string) :
  match_mgba line = Some (group1, handler) →
  (∃ key, int_16 group1 = Some key ∧ 0 ≤ key)
  ∧ handler ≠ "" ∧ all_chars is_word_char handler = true.
Proof.
  unfold match_mgba. intros Hmatch.
  destruct (literal "[" (star is_space line)) as [s1 |]; [| discriminate Hmatch].
  cbn [mbind option_bind] in Hmatch.
  destruct (literal "0x" s1) as [s2 |]; [| discriminate Hmatch].
  cbn [mbind option_bind] in Hmatch.
  destruct (plus is_hex_digit s2) as [[digits s3] |] eqn:Hdigits; [| discriminate Hmatch].
  cbn [mbind option_bind] in Hmatch.
  destruct (literal "]" s3) as [s4 |]; [| discriminate Hmatch].
  cbn [mbind option_bind] in Hmatch.
  destruct (literal "=" (star is_space s4)) as [s5 |]; [| discriminate Hmatch].
  cbn [mbind option_bind] in Hmatch.
  destruct (plus is_word_char (star is_space s5)) as [[name s6] |] eqn:Hname;
    [| discriminate Hmatch].
  cbn [mbind option_bind] in Hmatch.
  destruct (literal "," s6) as [s7 |]; [| discriminate Hmatch].
  cbn [mbind option_bind] in Hmatch. injection Hmatch as <- <-.
  apply plus_spec in Hdigits as (_ & Hdne & Hhex).
  apply plus_spec in Hname as (_ & Hnne & Hword).
  split; [| split; assumption].
  exists (hex_value digits 0). split; [| apply hex_value_nonneg; [lia | assumption]].
  unfold int_16. change (literal "0x" ("0x" +:+ digits)) with (Some digits).
  cbn [mbind option_bind]. unfold plus. rewrite span_all by assumption.
  destruct (String.eqb_spec digits "") as [-> | _]; [contradiction |].
  reflexivity.
Qed.

(** X19: [parse_mgba_table] returns a table for every list of lines (the
    pattern lets only hexadecimal digits reach [int], which therefore
    never raises); no key of the table is negative and every name in it
    is a non-empty word; hence [main], run on any two lists of lines,
    prints its report. *)
Theorem parse_mgba_table_total (mgba_lines your_lines : list string) :
  (∃ table, parse_mgba_table mgba_lines = Some table
            ∧ ∀ key handler, table !! key = Some handler →
                0 ≤ key ∧ handler ≠ "" ∧ all_chars is_word_char handler = true)
  ∧ ∃ out, main_of_lines mgba_lines your_lines = Some out.
Proof.
  assert (Hparse : ∀ lines table,
             (∀ key handler, table !! key = Some handler →
                0 ≤ key ∧ handler ≠ "" ∧ all_chars is_word_char handler = true) →
             ∃ table', for_each lines parse_mgba_line table = Some table'
                       ∧ ∀ key handler, table' !! key = Some handler →
                           0 ≤ key ∧ handler ≠ "" ∧ all_chars is_word_char handler = true).
  { induction lines as [| line lines IH]; intros table Hinv; [exists table; auto |].
    cbn [for_each].
    assert (Hline : ∃ table1, parse_mgba_line table line = Some table1
                      ∧ ∀ key handler, table1 !! key = Some handler →
                          0 ≤ key ∧ handler ≠ "" ∧ all_chars is_word_char handler = true).
    { unfold parse_mgba_line.
      destruct (match_mgba line) as [[group1 handler] |] eqn:Hmatch; [| exists table; auto].
      apply match_mgba_groups in Hmatch as ((key & Hint & Hkey) & Hne & Hword).
      rewrite Hint. cbn [mbind option_bind]. eexists. split; [reflexivity |].
      intros key' handler' Hlk.
      destruct (decide (key = key')) as [<- | Hdiff].
      - rewrite lookup_insert_eq in Hlk. injection Hlk as <-. auto.
      - rewrite lookup_insert_ne in Hlk by assumption. apply Hinv in Hlk. assumption. }
    destruct Hline as (table1 & -> & Hinv1). cbn [mbind option_bind].
    apply IH. assumption. }
  destruct (Hparse mgba_lines ∅) as (table & Htable & Hinv).
  { intros key handler Hlk. rewrite lookup_empty in Hlk. discriminate Hlk. }
  split; [exists table; split; assumption |].
  unfold main_of_lines, parse_mgba_table in *. rewrite Htable. cbn [mbind option_bind]. eauto.
Qed.

(** * Keys in hexadecimal *)

Section Hexadecimal.

Lemma hex_value_app (s t : string) :
  ∀ acc, hex_value (s +:+ t) acc = hex_value t (hex_value s acc).
Proof.
  induction s as [| c s IH]; intros acc; [reflexivity |].
  rewrite append_String. cbn [hex_value]. apply IH.
Qed.

Lemma all_chars_app (class : ascii → bool) (s t : string) :
  all_chars class (s +:+ t) = all_chars class s && all_chars class t.
Proof.
  induction s as [| c s IH]; [reflexivity |].
  rewrite append_String. cbn [all_chars]. rewrite IH, andb_assoc. reflexivity.
Qed.

(** The sixteen digits are hexadecimal digits with the right values. *)
Lemma hex_digit_spec (d : N) :
  (d < 16)%N →
  is_hex_digit (hex_digit d) = true ∧ hex_digit_value (hex_digit d) = Z.of_N d.
Proof.
  intros Hd.
  assert (Hall : forallb (λ k, is_hex_digit (hex_digit (N.of_nat k))
                               && (hex_digit_value (hex_digit (N.of_nat k))
                                   =? Z.of_N (N.of_nat k)))
                         (seq 0 16) = true) by (vm_compute; reflexivity).
  rewrite forallb_forall in Hall.
  assert (Hin : In (N.to_nat d) (seq 0 16)) by (apply in_seq; lia).
  specialize (Hall _ Hin). rewrite N2Nat.id in Hall.
  apply andb_prop in Hall as [Hhex Hval].
  apply Z.eqb_eq in Hval. auto.
Qed.

(** The digits [upper_hex_digits] puts in front of [acc]. *)
Lemma upper_hex_digits_spec (fuel : nat) :
  ∀ n acc, (n < 16 ^ N.of_nat fuel)%N → (0 < fuel)%nat →
    ∃ digits, upper_hex_digits fuel n acc = digits +:+ acc
              ∧ digits ≠ ""
              ∧ all_chars is_hex_digit digits = true
              ∧ ∀ a, hex_value digits a
                     = a * 16 ^ Z.of_nat (String.length digits) + Z.of_N n.
Proof.
  induction fuel as [| fuel IH]; intros n acc Hn Hfuel; [lia |].
  cbn [upper_hex_digits].
  assert (Hmod : (n mod 16 < 16)%N) by (apply N.mod_lt; lia).
  destruct (hex_digit_spec _ Hmod) as [Hhex Hval].
  destruct (N.eqb_spec (n / 16) 0) as [Hsmall | Hbig].
  - exists (String (hex_digit (n mod 16)) "").
    split; [reflexivity |]. split; [discriminate |].
    split; [cbn [all_chars]; rewrite Hhex; reflexivity |].
    intros a. cbn [hex_value String.length]. rewrite Hval.
    pose proof (N.div_mod n 16 ltac:(lia)) as Hdm. rewrite Hsmall in Hdm.
    change (16 ^ Z.of_nat 1) with 16. lia.
  - assert (Hfuel' : (0 < fuel)%nat).
    { destruct fuel; [| lia]. exfalso. apply Hbig. apply N.div_small.
      change (16 ^ N.of_nat 1)%N with 16%N in Hn. assumption. }
    destruct (IH (n / 16)%N (String (hex_digit (n mod 16)) acc)) as (ds & Heq & Hne & Hall & Hv).
    { apply N.Div0.div_lt_upper_bound.
      replace (N.of_nat (S fuel)) with (N.succ (N.of_nat fuel)) in Hn by lia.
      rewrite N.pow_succ_r' in Hn. assumption. }
    { assumption. }
    exists (ds +:+ String (hex_digit (n mod 16)) "").
    split; [rewrite Heq, append_assoc_eq; reflexivity |].
    split; [destruct ds; [contradiction | discriminate] |].
    split; [rewrite all_chars_app, Hall; cbn [all_chars]; rewrite Hhex; reflexivity |].
    intros a. rewrite hex_value_app, Hv. cbn [hex_value].
    rewrite string_length_append, Hval. cbn [String.length].
    replace (Z.of_nat (String.length ds + 1)) with (Z.succ (Z.of_nat (String.length ds)))
      by lia.
    rewrite Z.pow_succ_r by lia.
    pose proof (N.div_mod n 16 ltac:(lia)) as Hdm. lia.
Qed.

Lemma upper_hex_spec (n : N) :
  upper_hex n ≠ "" ∧ all_chars is_hex_digit (upper_hex n) = true
  ∧ hex_value (upper_hex n) 0 = Z.of_N n.
Proof.
  unfold upper_hex.
  destruct (upper_hex_digits_spec (S (N.to_nat (N.log2 n))) n "")
    as (ds & Heq & Hne & Hall & Hv); [| lia |].
  { destruct (N.eq_dec n 0%N) as [-> | Hpos]; [reflexivity |].
    apply N.lt_le_trans with (2 ^ N.succ (N.log2 n))%N.
    - apply N.log2_spec. lia.
    - replace (N.of_nat (S (N.to_nat (N.log2 n)))) with (N.succ (N.log2 n)) by lia.
      apply N.pow_le_mono_l. lia. }
  rewrite Heq.
  assert (Hnil : ∀ s : string, s +:+ "" = s).
  { induction s as [| c s IH]; [reflexivity |]. rewrite append_String, IH. reflexivity. }
  rewrite Hnil. split; [assumption |]. split; [assumption |].
  rewrite Hv. lia.
Qed.

Lemma zeros_spec (k : Z) :
  all_chars is_hex_digit (times "0" k) = true ∧ hex_value (times "0" k) 0 = 0.
Proof.
  unfold times. induction (Z.to_nat k) as [| j [IHall IHv]]; [split; reflexivity |].
  cbn [replicate fold_right all_chars hex_value]. split; [exact IHall | exact IHv].
Qed.

(** The text [format_03X] makes of a key that is not negative: digits
    only, with the key as their value. *)
Lemma format_03X_spec (key : Z) :
  0 ≤ key →
  format_03X key ≠ "" ∧ all_chars is_hex_digit (format_03X key) = true
  ∧ hex_value (format_03X key) 0 = key.
Proof.
  intros Hkey. unfold format_03X.
  destruct (Z.ltb_spec key 0) as [Hneg | _]; [lia |].
  destruct (upper_hex_spec (Z.to_N key)) as (Hne & Hall & Hv).
  destruct (zeros_spec (Z.of_nat (3 - String.length (upper_hex (Z.to_N key)))))
    as [Hzall Hzv].
  unfold zfill. split.
  - intros Hempty. apply (f_equal String.length) in Hempty.
    rewrite string_length_append in Hempty.
    destruct (upper_hex (Z.to_N key)); [contradiction | cbn in Hempty; lia].
  - rewrite all_chars_app, Hzall, Hall, hex_value_app, Hzv, Hv. split; [reflexivity | lia].
Qed.

End Hexadecimal.

Lemma star_stop (class : ascii → bool) (c : ascii) (s : string) :
  class c = false → star class (String c s) = String c s.
Proof. intros Hc. unfold star. cbn [span]. rewrite Hc. reflexivity. Qed.

Lemma star_skip (class : ascii → bool) (c : ascii) (s : string) :
  class c = true → star class (String c s) = star class s.
Proof.
  intros Hc. unfold star. cbn [span]. rewrite Hc.
  destruct (span class s). reflexivity.
Qed.

Lemma plus_stop (class : ascii → bool) (h : string) (c : ascii) (rest : string) :
  all_chars class h = true → h ≠ "" → class c = false →
  plus class (h +:+ String c rest) = Some (h, String c rest).
Proof.
  intros Hall Hne Hc. unfold plus. rewrite span_stop by assumption.
  destruct (String.eqb_spec h "") as [Heq | _]; [contradiction | reflexivity].
Qed.

Lemma literal_nil (s : string) : literal "" s = Some s.
Proof. reflexivity. Qed.

Lemma literal_cons (c : ascii) (text s : string) :
  literal (String c text) (String c s) = literal text s.
Proof. cbn [literal]. rewrite Ascii.eqb_refl. reflexivity. Qed.

(** X20: a key that is not negative, written the way the emitter and the
    report write it ([0x] and [{key:03X}]), is read back by [int(_, 16)]
    as the same key; and [parse_mgba_table] reads an entry line with such a
    key and a word for a name as that key with that name. *)
Theorem hexadecimal_key_round_trip (key : Z) (handler : string) (table : gmap Z string) :
  0 ≤ key → handler ≠ "" → all_chars is_word_char handler = true →
  int_16 ("0x" +:+ format_03X key) = Some key
  ∧ match_mgba ("[0x" +:+ format_03X key +:+ "] = " +:+ handler +:+ ",")
    = Some ("0x" +:+ format_03X key, handler)
  ∧ parse_mgba_line table ("[0x" +:+ format_03X key +:+ "] = " +:+ handler +:+ ",")
    = Some (<[key := handler]> table).
Proof.
  intros Hkey Hne Hword.
  destruct (format_03X_spec key Hkey) as (Hfne & Hfall & Hfv).
  assert (Hint : int_16 ("0x" +:+ format_03X key) = Some key).
  { unfold int_16. change (literal "0x" ("0x" +:+ format_03X key)) with (Some (format_03X key)).
    cbn [mbind option_bind]. unfold plus. rewrite span_all by assumption.
    destruct (String.eqb_spec (format_03X key) "") as [Heq | _]; [contradiction |].
    cbn [mbind option_bind]. rewrite String.eqb_refl, Hfv. reflexivity. }
  assert (Hmatch : match_mgba ("[0x" +:+ format_03X key +:+ "] = " +:+ handler +:+ ",")
                   = Some ("0x" +:+ format_03X key, handler)).
  { assert (Hline : "[0x" +:+ format_03X key +:+ "] = " +:+ handler +:+ ","
                    = String "[" (String "0" (String "x"
                        (format_03X key +:+ String "]" (String " " (String "=" (String " "
                           (handler +:+ String "," ""))))))))
      by reflexivity.
    rewrite Hline. unfold match_mgba.
    rewrite star_stop by reflexivity. rewrite !literal_cons, literal_nil.
    cbn [mbind option_bind]. rewrite !literal_cons, literal_nil.
    cbn [mbind option_bind].
    rewrite (plus_stop is_hex_digit (format_03X key) "]"); [| assumption .. | reflexivity].
    cbn [mbind option_bind]. rewrite !literal_cons, literal_nil.
    cbn [mbind option_bind].
    rewrite star_skip by reflexivity. rewrite star_stop by reflexivity.
    rewrite !literal_cons, literal_nil. cbn [mbind option_bind].
    rewrite star_skip by reflexivity.
    assert (Hstar : star is_space (handler +:+ String "," "") = handler +:+ String "," "").
    { destruct handler as [| c h]; [contradiction |].
      cbn [all_chars] in Hword. apply andb_prop in Hword as [Hc _].
      rewrite append_String. apply star_stop.
      revert Hc. unfold is_word_char, is_space. generalize (N_of_ascii c) as n.
      intros n Hn. repeat rewrite ?orb_true_iff, ?andb_true_iff, ?N.leb_le, ?N.eqb_eq in Hn.
      repeat rewrite ?orb_false_iff, ?andb_false_iff, ?N.leb_gt, ?N.eqb_neq. lia. }
    rewrite Hstar.
    rewrite (plus_stop is_word_char handler ","); [| assumption .. | reflexivity].
    cbn [mbind option_bind]. rewrite !literal_cons, literal_nil. reflexivity. }
  split; [exact Hint |]. split; [exact Hmatch |].
  unfold parse_mgba_line. rewrite Hmatch, Hint. reflexivity.
Qed.

Lemma hexadecimal_key_round_trip_witness :
  int_16 ("0x" +:+ format_03X 0x1A5) = Some 0x1A5
  ∧ match_mgba ("[0x" +:+ format_03X 0x1A5 +:+ "] = " +:+ "LDMIA" +:+ ",")
    = Some ("0x" +:+ format_03X 0x1A5, "LDMIA")
  ∧ parse_mgba_line ∅ ("[0x" +:+ format_03X 0x1A5 +:+ "] = " +:+ "LDMIA" +:+ ",")
    = Some (<[0x1A5 := "LDMIA"]> ∅).
Proof.
  apply (hexadecimal_key_round_trip 0x1A5 "LDMIA" ∅); [lia | discriminate | reflexivity].
Defined.

(** * The emitted lines as lines of a file *)

Section EmittedLines.

Variable arr : list string.

Lemma abab_block_emitted (i : nat) (output out' : list line) (i' : nat) :
  abab_block arr i output = Return (out', i') →
  ∃ l, out' = (output ++ [l])%list ∧ emitted_from arr l.
Proof.
  unfold abab_block. destruct (i + 3 <? length arr)%nat; [| discriminate].
  destruct (arr !! i) as [a |] eqn:Ha; [| discriminate].
  destruct (arr !! (i + 1)%nat) as [b |] eqn:Hb; [| discriminate].
  destruct (check_pattern _ _ _ _) as [r |]; [| discriminate].
  destruct (r && negb (String.eqb a b)); [| discriminate].
  intros [= <- <-]. eexists. split; [reflexivity |].
  right. exists a, b, (Z.of_nat i).
  split; [eapply list_elem_of_lookup_2; eassumption |].
  split; [eapply list_elem_of_lookup_2; eassumption |].
  split; [lia | reflexivity].
Qed.

Lemma aabb_block_emitted (i : nat) (output out' : list line) (i' : nat) :
  aabb_block arr i output = Return (out', i') →
  ∃ l, out' = (output ++ [l])%list ∧ emitted_from arr l.
Proof.
  unfold aabb_block. destruct (i + 3 <? length arr)%nat; [| discriminate].
  destruct (arr !! i) as [a |] eqn:Ha; [| discriminate].
  destruct (arr !! (i + 2)%nat) as [b |] eqn:Hb; [| discriminate].
  destruct (check_pattern _ _ _ _) as [r |]; [| discriminate].
  destruct (r && negb (String.eqb a b)); [| discriminate].
  intros [= <- <-]. eexists. split; [reflexivity |].
  right. exists a, b, (Z.of_nat i).
  split; [eapply list_elem_of_lookup_2; eassumption |].
  split; [eapply list_elem_of_lookup_2; eassumption |].
  split; [lia | reflexivity].
Qed.

Lemma macro_count (m : nat) : In m macros → Z.of_nat m ∈ macro_counts.
Proof.
  intros Hm. unfold macros in Hm. cbn [In] in Hm.
  repeat (destruct Hm as [<- | Hm]; [apply (bool_decide_unpack _); vm_compute; exact I |]).
  contradiction.
Qed.

Lemma emit_blocks_emitted (handler : string) (fuel : nat) :
  handler ∈ arr →
  ∀ start count output out' start',
    emit_blocks fuel handler start count output = Some (out', start') →
    ∃ lines, out' = (output ++ lines)%list ∧ Forall (emitted_from arr) lines.
Proof.
  intros Hh. induction fuel as [| fuel IH]; intros start count output out' start' Hrun;
    [discriminate Hrun |].
  cbn [emit_blocks] in Hrun. destruct (0 <? count)%nat.
  - destruct (find (λ m, m <=? count)%nat macros) as [m |] eqn:Hfind.
    + apply IH in Hrun as (lines & -> & Hall).
      exists (emit_repeat_macro (One handler) (Z.of_nat m) (Z.of_nat start) :: lines).
      rewrite <- app_assoc. split; [reflexivity |].
      constructor; [| assumption].
      left. exists handler, (Z.of_nat m), (Z.of_nat start).
      apply find_some in Hfind as [Hin _].
      split; [assumption |]. split; [apply macro_count; assumption |].
      split; [lia | reflexivity].
    + apply IH in Hrun. assumption.
  - injection Hrun as <- _. exists []. rewrite app_nil_r. split; [reflexivity | constructor].
Qed.

Lemma iteration_emitted (i : nat) (output out' : list line) (i' : nat) :
  iteration arr i output = Some (out', i') →
  ∃ lines, out' = (output ++ lines)%list ∧ Forall (emitted_from arr) lines.
Proof.
  unfold iteration.
  destruct (abab_block arr i output) as [[out1 i1] | |] eqn:Habab; cbn [in_sequence].
  - intros [= <- <-]. apply abab_block_emitted in Habab as (l & -> & Hl).
    exists [l]. split; [reflexivity | constructor; [assumption | constructor]].
  - discriminate.
  - destruct (aabb_block arr i output) as [[out2 i2] | |] eqn:Haabb; cbn [in_sequence].
    + intros [= <- <-]. apply aabb_block_emitted in Haabb as (l & -> & Hl).
      exists [l]. split; [reflexivity | constructor; [assumption | constructor]].
    + discriminate.
    + unfold run_block. destruct (arr !! i) as [handler |] eqn:Hh; [| discriminate].
      cbn [mbind option_bind].
      destruct (count_run _ _ _ _ _) as [count |]; [| discriminate].
      cbn [mbind option_bind]. apply emit_blocks_emitted.
      eapply list_elem_of_lookup_2. eassumption.
Qed.

Lemma outer_loop_emitted (fuel : nat) :
  ∀ i output out,
    outer_loop fuel arr i output = Some out →
    ∃ lines, out = (output ++ lines)%list ∧ Forall (emitted_from arr) lines.
Proof.
  induction fuel as [| fuel IH]; intros i output out Hrun; [discriminate Hrun |].
  cbn [outer_loop] in Hrun. destruct (i <? length arr)%nat.
  - destruct (iteration arr i output) as [[out1 i1] |] eqn:Hit; [| discriminate Hrun].
    cbn [mbind option_bind] in Hrun.
    apply iteration_emitted in Hit as (lines & -> & Hall).
    apply IH in Hrun as (rest & -> & Hall').
    exists (lines ++ rest)%list. rewrite app_assoc. split; [reflexivity |].
    apply Forall_app. split; assumption.
  - injection Hrun as <-. exists []. rewrite app_nil_r. split; [reflexivity | constructor].
Qed.

Lemma hex_not_break (c : ascii) : is_hex_digit c = true → is_not_break c = true.
Proof.
  unfold is_hex_digit, is_not_break. generalize (N_of_ascii c) as n. intros n Hn.
  repeat rewrite ?orb_true_iff, ?andb_true_iff, ?N.leb_le in Hn.
  apply negb_true_iff, orb_false_iff. rewrite !N.eqb_neq. lia.
Qed.

Lemma all_chars_impl (class class' : ascii → bool) (s : string) :
  (∀ c, class c = true → class' c = true) →
  all_chars class s = true → all_chars class' s = true.
Proof.
  intros Himpl. induction s as [| c s IH]; [reflexivity |].
  cbn [all_chars]. intros [Hc Hs]%andb_prop. rewrite (Himpl c Hc), (IH Hs). reflexivity.
Qed.

Lemma format_one_line (key : Z) :
  0 ≤ key → all_chars is_not_break (format_03X key) = true.
Proof.
  intros Hkey. destruct (format_03X_spec key Hkey) as (_ & Hall & _).
  apply (all_chars_impl is_hex_digit); [exact hex_not_break | assumption].
Qed.

Lemma times_one_line (n : Z) : all_chars is_not_break (times " " n) = true.
Proof.
  unfold times. induction (Z.to_nat n) as [| k IH]; [reflexivity |].
  cbn [replicate fold_right all_chars]. rewrite IH. reflexivity.
Qed.

(** The text of an emitted line has no line break when the names of the
    table have none. *)
Lemma emitted_text_one_line (comment_col : Z) (l : line) :
  Forall (λ h, one_line_name h = true) arr →
  emitted_from arr l →
  all_chars is_not_break (line_text comment_col l) = true.
Proof.
  intros Hnames Hl. rewrite Forall_forall in Hnames.
  assert (Hname : ∀ h, h ∈ arr → all_chars is_not_break h = true).
  { intros h Hh. specialize (Hnames h Hh). unfold one_line_name in Hnames.
    apply andb_prop in Hnames as [_ Hbreak]. assumption. }
  destruct Hl as [(h & count & start & Hh & Hcount & Hstart & ->)
                 | (a & b & start & Ha & Hb & Hstart & ->)].
  - pose proof (Hname h Hh) as Hhb. unfold macro_counts in Hcount.
    repeat (apply elem_of_cons in Hcount as [-> | Hcount];
            [unfold line_text, indent; cbn [emit_repeat_macro Z.eqb Pos.eqb code comment];
             unfold call_text, fn_text, span_text;
             rewrite !all_chars_app, Hhb, times_one_line, !format_one_line by lia;
             reflexivity |]).
    inversion Hcount.
  - pose proof (Hname a Ha) as Hab. pose proof (Hname b Hb) as Hbb.
    unfold line_text, indent. cbn [emit_repeat_macro Z.eqb Pos.eqb code comment].
    unfold call_text, fn_text, span_text.
    rewrite !all_chars_app, Hab, Hbb, times_one_line, !format_one_line by lia.
    reflexivity.
Qed.

(** X18: take a table of names that are not empty and have neither a
    closing parenthesis nor a line break.  Then no line the emitter writes
    for it has a line break, so that the file holding them has them as its
    lines; and [parse_your_table], given these lines, has at [idx] the
    handler of line [idx] if that line is a single entry and nothing if
    the line is a macro: the keys are positions among the lines, not
    indices of the table. *)
Theorem generated_table_read_back (out : list line) (idx : Z) :
  Forall (λ h, one_line_name h = true) arr →
  generate_cpp_table arr = Some out →
  Forall (λ l, all_chars is_not_break (line_text 52 l) = true) out
  ∧ parse_your_table (line_text 52 <$> out) !! idx
    = if 0 <=? idx then out !! Z.to_nat idx ≫= (λ l, read_back (code l)) else None.
Proof.
  intros Hnames Hgen. split.
  { unfold generate_cpp_table in Hgen.
    apply outer_loop_emitted in Hgen as (lines & -> & Hall). cbn [app].
    eapply Forall_impl; [exact Hall |]. intros l Hl.
    apply emitted_text_one_line; assumption. }
  assert (Hplain : ∀ h, h ∈ arr → plain_name h = true).
  { rewrite Forall_forall in Hnames. intros h Hh. specialize (Hnames h Hh).
    unfold one_line_name in Hnames. apply andb_prop in Hnames as [Hp _]. assumption. }
  unfold generate_cpp_table in Hgen.
  destruct (outer_loop_spec arr (S (length arr)) 0 []) as (out' & Hout & _ & Hacc & Hshape);
    [lia | lia |].
  rewrite Hgen in Hout. injection Hout as <-.
  unfold parse_your_table. rewrite parse_your_lines_lookup, lookup_empty, Z.sub_0_r.
  destruct (Z.leb_spec 0 idx) as [Hpos | Hneg]; [| reflexivity]. cbn [andb].
  rewrite length_fmap, list_lookup_fmap.
  destruct (out !! Z.to_nat idx) as [l |] eqn:Hl.
  - replace (idx <? 0 + Z.of_nat (length out)) with true
      by (symmetry; apply Z.ltb_lt; apply lookup_lt_Some in Hl; lia).
    cbn [fmap option_fmap option_map mbind option_bind].
    rewrite match_your_line.
    + destruct (read_back (code l)); reflexivity.
    + eapply Forall_lookup_1; eassumption.
    + destruct (code l) as [h | | | | | | | | | |] eqn:Hcode; try exact I.
      apply Hplain.
      pose proof (Forall_lookup_1 _ _ _ _ Hacc Hl) as [Hfaith | (a & b & _ & _ & Hab)];
        [| congruence].
      apply (slice_elem arr l). unfold faithful in Hfaith.
      rewrite <- Hfaith, Hcode. cbn [expand]. left.
  - destruct (idx <? 0 + Z.of_nat (length out)); reflexivity.
Qed.

End EmittedLines.

Lemma generated_table_read_back_witness :
  Forall (λ l, all_chars is_not_break (line_text 52 l) = true)
         [emit_repeat_macro (One "a") 2 0; emit_repeat_macro (One "b") 1 2]
  ∧ parse_your_table
      (line_text 52 <$> [emit_repeat_macro (One "a") 2 0; emit_repeat_macro (One "b") 1 2]) !! 1
    = if 0 <=? 1
      then [emit_repeat_macro (One "a") 2 0; emit_repeat_macro (One "b") 1 2] !! Z.to_nat 1
           ≫= (λ l, read_back (code l))
      else None.
Proof.
  apply (generated_table_read_back ["a"; "a"; "b"]).
  - repeat constructor.
  - reflexivity.
Defined.
